(** * Preview mode page: [getStaticProps], the edit collector and the save flow

    A shallow embedding of [src/pages/index.tsx].  The page has three pieces
    of logic:

    - [getStaticProps], run at page generation: outside preview mode it
      returns [{ isPreview: false }]; in preview mode it reads
      ["<snapshotId>.json"] from the S3 bucket, parses it, and turns every
      failure of the read into a value;
    - the edit collector inside [share]: a [querySelectorAll] over the
      rendered document followed by a [map] to [{ id, innerText }] records;
    - the save flow of [share]: a guard on the [hasSaveRequest] ref, one
      [fetch] to [/api/save], and a promise chain that ends in [finally].

    JavaScript strings are modelled as byte strings holding UTF-8 text. *)

From Stdlib Require Import Ascii String NArith ZArith List Lia.
From stdpp Require Import base option list strings gmap sorting.

Set Warnings "-register-all".

(* ===================================================================== *)
(** ** JSON: the values, [JSON.stringify] and [JSON.parse]               *)
(* ===================================================================== *)

Module JSON.

(** A JSON value.  A number keeps the literal it was written with: the
    rounding to a double is not modelled.  An object keeps its properties
    in insertion order (the engine's reordering of integer-like keys is not
    modelled; nothing here enumerates the keys of a parsed object). *)
Inductive JsValue : Type :=
  | JNull
  | JBool (b : bool)
  | JNumber (literal : string)
  | JString (s : string)
  | JArray (items : list JsValue)
  | JObject (members : list (string * JsValue)).

(** [o[k]] on an object's property list. *)
Fixpoint get_prop (k : string) (ms : list (string * JsValue)) : option JsValue :=
  match ms with
  | [] => None
  | (k', v) :: ms' => if decide (k = k') then Some v else get_prop k ms'
  end.

(** [o[k] = v]: an existing property keeps its place, a new one goes last. *)
Fixpoint set_prop (k : string) (v : JsValue) (ms : list (string * JsValue))
  : list (string * JsValue) :=
  match ms with
  | [] => [(k, v)]
  | (k', v') :: ms' =>
      if decide (k = k') then (k, v) :: ms' else (k', v') :: set_prop k v ms'
  end.

(** *** Printing *)

Definition hex_digit (n : N) : ascii :=
  if (n <? 10)%N then ascii_of_N (48 + n) else ascii_of_N (87 + n).

(** One character of a string literal, as [JSON.stringify] quotes it. *)
Definition escape_char (c : ascii) : string :=
  match c with
  | "034"%char => String "\" (String "034" "")
  | "\"%char => "\\"
  | "008"%char => "\b"
  | "012"%char => "\f"
  | "010"%char => "\n"
  | "013"%char => "\r"
  | "009"%char => "\t"
  | _ =>
      let n := N_of_ascii c in
      if (n <? 32)%N
      then "\u00" +:+ String (hex_digit (n / 16)) (String (hex_digit (n mod 16)) "")
      else String c ""
  end.

Fixpoint escape (s : string) : string :=
  match s with
  | "" => ""
  | String c s' => escape_char c +:+ escape s'
  end.

Definition quote (s : string) : string :=
  String "034" (escape s +:+ String "034" "").

Fixpoint join (sep : string) (l : list string) : string :=
  match l with
  | [] => ""
  | [x] => x
  | x :: l' => x +:+ sep +:+ join sep l'
  end.

(** [JSON.stringify(v)] without indentation. *)
Fixpoint stringify (v : JsValue) : string :=
  match v with
  | JNull => "null"
  | JBool true => "true"
  | JBool false => "false"
  | JNumber lit => lit
  | JString s => quote s
  | JArray vs => "[" +:+ join "," (map stringify vs) +:+ "]"
  | JObject ms =>
      "{" +:+ join "," (map (fun kv => quote (fst kv) +:+ ":" +:+ stringify (snd kv)) ms)
          +:+ "}"
  end.

(** *** Lexing *)

Inductive token : Type :=
  | TLBrace | TRBrace | TLBracket | TRBracket | TColon | TComma
  | TString (s : string)
  | TNumber (literal : string)
  | TTrue | TFalse | TNull.

(** Where the lexer stands inside a number literal: an optional minus, an
    integer part without leading zero, an optional fraction, an optional
    exponent. *)
Inductive numphase : Type :=
  | NMinus | NZero | NInt | NDot | NFrac | NExp | NExpSign | NExpDigits.

Definition num_accepting (p : numphase) : bool :=
  match p with
  | NZero | NInt | NFrac | NExpDigits => true
  | NMinus | NDot | NExp | NExpSign => false
  end.

Definition is_digit (c : ascii) : bool :=
  let n := N_of_ascii c in ((48 <=? n) && (n <=? 57))%N.

Definition num_step (p : numphase) (c : ascii) : option numphase :=
  match p with
  | NMinus =>
      if decide (c = "0"%char) then Some NZero
      else if is_digit c then Some NInt else None
  | NZero =>
      if decide (c = "."%char) then Some NDot
      else if bool_decide (c = "e"%char) || bool_decide (c = "E"%char) then Some NExp else None
  | NInt =>
      if is_digit c then Some NInt
      else if decide (c = "."%char) then Some NDot
      else if bool_decide (c = "e"%char) || bool_decide (c = "E"%char) then Some NExp else None
  | NDot => if is_digit c then Some NFrac else None
  | NFrac =>
      if is_digit c then Some NFrac
      else if bool_decide (c = "e"%char) || bool_decide (c = "E"%char) then Some NExp else None
  | NExp =>
      if bool_decide (c = "+"%char) || bool_decide (c = "-"%char) then Some NExpSign
      else if is_digit c then Some NExpDigits else None
  | NExpSign => if is_digit c then Some NExpDigits else None
  | NExpDigits => if is_digit c then Some NExpDigits else None
  end.

Definition hex_value (c : ascii) : option N :=
  let n := N_of_ascii c in
  if ((48 <=? n) && (n <=? 57))%N then Some (n - 48)%N
  else if ((97 <=? n) && (n <=? 102))%N then Some (n - 87)%N
  else if ((65 <=? n) && (n <=? 70))%N then Some (n - 55)%N
  else None.

(** The UTF-8 bytes of one code unit of a [\uXXXX] escape, pushed (last
    byte first) on a reversed accumulator.  Surrogate halves are encoded
    unit by unit. *)
Definition push_code_unit (n : N) (acc : string) : string :=
  if (n <? 128)%N then String (ascii_of_N n) acc
  else if (n <? 2048)%N then
    String (ascii_of_N (128 + n mod 64))
      (String (ascii_of_N (192 + n / 64)) acc)
  else
    String (ascii_of_N (128 + n mod 64))
      (String (ascii_of_N (128 + (n / 64) mod 64))
         (String (ascii_of_N (224 + n / 4096)) acc)).

Inductive lstate : Type :=
  | LStart
  | LStr (acc : string)                       (* inside "...", reversed *)
  | LEsc (acc : string)                       (* after a backslash *)
  | LUni (acc : string) (n : N) (k : nat)     (* after \u, k digits read *)
  | LNum (p : numphase) (acc : string)        (* inside a number, reversed *)
  | LKw (rest : string) (t : token).          (* inside true, false, null *)

Definition is_ws (c : ascii) : bool :=
  match c with
  | " "%char | "009"%char | "010"%char | "013"%char => true
  | _ => false
  end.

Definition lex_start (c : ascii) : option (list token * lstate) :=
  if is_ws c then Some ([], LStart)
  else match c with
  | "{"%char => Some ([TLBrace], LStart)
  | "}"%char => Some ([TRBrace], LStart)
  | "["%char => Some ([TLBracket], LStart)
  | "]"%char => Some ([TRBracket], LStart)
  | ":"%char => Some ([TColon], LStart)
  | ","%char => Some ([TComma], LStart)
  | "034"%char => Some ([], LStr "")
  | "-"%char => Some ([], LNum NMinus "-")
  | "0"%char => Some ([], LNum NZero "0")
  | "t"%char => Some ([], LKw "rue" TTrue)
  | "f"%char => Some ([], LKw "alse" TFalse)
  | "n"%char => Some ([], LKw "ull" TNull)
  | _ => if is_digit c then Some ([], LNum NInt (String c "")) else None
  end.

Definition lex_step (st : lstate) (c : ascii) : option (list token * lstate) :=
  match st with
  | LStart => lex_start c
  | LStr acc =>
      if decide (c = "034"%char) then Some ([TString (String.rev acc)], LStart)
      else if decide (c = "\"%char) then Some ([], LEsc acc)
      else if (N_of_ascii c <? 32)%N then None
      else Some ([], LStr (String c acc))
  | LEsc acc =>
      match c with
      | "034"%char => Some ([], LStr (String "034" acc))
      | "\"%char => Some ([], LStr (String "\" acc))
      | "/"%char => Some ([], LStr (String "/" acc))
      | "b"%char => Some ([], LStr (String "008" acc))
      | "f"%char => Some ([], LStr (String "012" acc))
      | "n"%char => Some ([], LStr (String "010" acc))
      | "r"%char => Some ([], LStr (String "013" acc))
      | "t"%char => Some ([], LStr (String "009" acc))
      | "u"%char => Some ([], LUni acc 0 0)
      | _ => None
      end
  | LUni acc n k =>
      match hex_value c with
      | Some d =>
          let n' := (16 * n + d)%N in
          if decide (k = 3) then Some ([], LStr (push_code_unit n' acc))
          else Some ([], LUni acc n' (S k))
      | None => None
      end
  | LNum p acc =>
      match num_step p c with
      | Some p' => Some ([], LNum p' (String c acc))
      | None =>
          if num_accepting p then
            match lex_start c with
            | Some (ts, st') => Some (TNumber (String.rev acc) :: ts, st')
            | None => None
            end
          else None
      end
  | LKw rest t =>
      match rest with
      | String c' rest' =>
          if decide (c = c') then
            match rest' with
            | "" => Some ([t], LStart)
            | _ => Some ([], LKw rest' t)
            end
          else None
      | "" => None
      end
  end.

Fixpoint lex_run (st : lstate) (s : string) : option (list token * lstate) :=
  match s with
  | "" => Some ([], st)
  | String c s' =>
      match lex_step st c with
      | Some (ts, st') =>
          match lex_run st' s' with
          | Some (ts', st'') => Some (ts ++ ts', st'')
          | None => None
          end
      | None => None
      end
  end.

(** What the end of the input means in each lexer state. *)
Definition lex_end (st : lstate) : option (list token) :=
  match st with
  | LStart => Some []
  | LNum p acc => if num_accepting p then Some [TNumber (String.rev acc)] else None
  | _ => None
  end.

Definition tokenize (s : string) : option (list token) :=
  match lex_run LStart s with
  | Some (ts, st) =>
      match lex_end st with
      | Some te => Some (ts ++ te)
      | None => None
      end
  | None => None
  end.

(** *** Parsing: a pushdown automaton over the tokens *)

(** A container that waits for the value being read. *)
Inductive frame : Type :=
  | FArr (acc : list JsValue)                       (* items so far, reversed *)
  | FObj (acc : list (string * JsValue)) (key : string).

Inductive pstate : Type :=
  | SVal (stk : list frame)                         (* a value *)
  | SArrFirst (stk : list frame)                    (* a value or ] *)
  | SArrNext (acc : list JsValue) (stk : list frame)           (* , or ] *)
  | SObjFirst (stk : list frame)                    (* a key or } *)
  | SObjKey (acc : list (string * JsValue)) (stk : list frame) (* a key *)
  | SObjColon (acc : list (string * JsValue)) (key : string) (stk : list frame)
  | SObjNext (acc : list (string * JsValue)) (stk : list frame) (* , or } *)
  | SDone (v : JsValue).

(** A finished value goes to the container on top of the stack. *)
Definition deliver (v : JsValue) (stk : list frame) : pstate :=
  match stk with
  | [] => SDone v
  | FArr acc :: stk' => SArrNext (v :: acc) stk'
  | FObj acc key :: stk' => SObjNext (set_prop key v acc) stk'
  end.

Definition pvalue (stk : list frame) (t : token) : option pstate :=
  match t with
  | TNull => Some (deliver JNull stk)
  | TTrue => Some (deliver (JBool true) stk)
  | TFalse => Some (deliver (JBool false) stk)
  | TNumber lit => Some (deliver (JNumber lit) stk)
  | TString s => Some (deliver (JString s) stk)
  | TLBracket => Some (SArrFirst stk)
  | TLBrace => Some (SObjFirst stk)
  | TRBrace | TRBracket | TColon | TComma => None
  end.

Definition pstep (st : pstate) (t : token) : option pstate :=
  match st with
  | SVal stk => pvalue stk t
  | SArrFirst stk =>
      match t with
      | TRBracket => Some (deliver (JArray []) stk)
      | _ => pvalue (FArr [] :: stk) t
      end
  | SArrNext acc stk =>
      match t with
      | TComma => Some (SVal (FArr acc :: stk))
      | TRBracket => Some (deliver (JArray (rev acc)) stk)
      | _ => None
      end
  | SObjFirst stk =>
      match t with
      | TRBrace => Some (deliver (JObject []) stk)
      | TString k => Some (SObjColon [] k stk)
      | _ => None
      end
  | SObjKey acc stk =>
      match t with
      | TString k => Some (SObjColon acc k stk)
      | _ => None
      end
  | SObjColon acc k stk =>
      match t with
      | TColon => Some (SVal (FObj acc k :: stk))
      | _ => None
      end
  | SObjNext acc stk =>
      match t with
      | TComma => Some (SObjKey acc stk)
      | TRBrace => Some (deliver (JObject acc) stk)
      | _ => None
      end
  | SDone _ => None
  end.

Fixpoint prun (st : pstate) (ts : list token) : option pstate :=
  match ts with
  | [] => Some st
  | t :: ts' =>
      match pstep st t with
      | Some st' => prun st' ts'
      | None => None
      end
  end.

(** [JSON.parse(s)]: [None] stands for the [SyntaxError] it throws. *)
Definition parse (s : string) : option JsValue :=
  match tokenize s with
  | Some ts =>
      match prun (SVal []) ts with
      | Some (SDone v) => Some v
      | _ => None
      end
  | None => None
  end.

(** Lexing [s2] from wherever lexing [s1] stopped. *)
Definition lex_then (r : option (list token * lstate)) (s : string)
  : option (list token * lstate) :=
  match r with
  | Some (ts, st) =>
      match lex_run st s with
      | Some (ts', st') => Some (ts ++ ts', st')
      | None => None
      end
  | None => None
  end.

(** Tokens already emitted, put before the rest of a run. *)
Definition emit (ts : list token) (r : option (list token * lstate))
  : option (list token * lstate) :=
  match r with
  | Some (ts', st) => Some (ts ++ ts', st)
  | None => None
  end.

End JSON.

Import JSON.

(* ===================================================================== *)
(** ** The runtime: errors, the S3 bucket, effectful computations        *)
(* ===================================================================== *)

(** A thrown error object.  [statusCode] is the field the AWS SDK sets on
    the errors of a failed request; the errors of the language itself
    ([TypeError], [SyntaxError]) have none. *)
Inductive JsError : Type :=
  mkError (name : string) (text : string) (statusCode : option Z)
          (cause : option JsError).

Definition statusCode (e : JsError) : option Z :=
  match e with mkError _ _ c _ => c end.
Definition error_message (e : JsError) : string :=
  match e with mkError _ t _ _ => t end.

Definition TypeError : JsError := mkError "TypeError" "" None None.
Definition SyntaxError : JsError := mkError "SyntaxError" "" None None.
(** [new Error(text)] *)
Definition new_Error (text : string) : JsError := mkError "Error" text None None.
(** What S3 answers for a key that the caller may not see or that does not
    exist: the bucket is private, so both are a 403. *)
Definition AccessDenied : JsError :=
  mkError "AccessDenied" "Access Denied" (Some 403%Z) None.
Definition MissingRequiredParameter : JsError :=
  mkError "MissingRequiredParameter" "Missing required key 'Bucket' in params"
          None None.

Inductive Completion (A : Type) : Type :=
  | Normal (a : A)
  | Throw (e : JsError).
Arguments Normal {A} a.
Arguments Throw {A} e.

(** The answer of [s3.getObject]: [Body] is optional in the SDK's type. *)
Record S3Object : Type := mkObject { Body : option string }.

Record ObjectRequest : Type := mkRequest {
  Bucket : option string;
  Key : string
}.

Inductive S3Call : Type :=
  | GetObject (req : ObjectRequest)
  | PutObject (req : ObjectRequest) (body : string).

(** Everything outside the page that its code reads or changes. *)
Record World : Type := mkWorld {
  env_AWS_S3_BUCKET : option string;            (* process.env.AWS_S3_BUCKET *)
  s3_objects : gmap (string * string) S3Object; (* (bucket, key) to object *)
  s3_fault : option JsError;    (* set: the service fails every request *)
  s3_calls : list S3Call;       (* the calls of the client so far, oldest first *)
  token_source : nat -> string; (* the random identifiers still to come *)
  tokens_drawn : nat
}.

Definition log_call (c : S3Call) (w : World) : World :=
  mkWorld (env_AWS_S3_BUCKET w) (s3_objects w) (s3_fault w)
          (s3_calls w ++ [c]) (token_source w) (tokens_drawn w).

Definition store_object (b k : string) (o : S3Object) (w : World) : World :=
  mkWorld (env_AWS_S3_BUCKET w) (<[(b, k) := o]> (s3_objects w)) (s3_fault w)
          (s3_calls w) (token_source w) (tokens_drawn w).

Definition draw_token (w : World) : World :=
  mkWorld (env_AWS_S3_BUCKET w) (s3_objects w) (s3_fault w)
          (s3_calls w) (token_source w) (S (tokens_drawn w)).

(** A computation that may read and change the world, and may throw. *)
Definition Js (A : Type) : Type := World -> Completion A * World.

#[global] Instance Js_ret : MRet Js := fun A a w => (Normal a, w).
#[global] Instance Js_bind : MBind Js := fun A B k m w =>
  match m w with
  | (Normal a, w') => k a w'
  | (Throw e, w') => (Throw e, w')
  end.

Definition throw {A : Type} (e : JsError) : Js A := fun w => (Throw e, w).

(** [try { body } catch (e) { handler }] *)
Definition try_catch {A : Type} (body : Js A) (handler : JsError -> Js A) : Js A :=
  fun w =>
    match body w with
    | (Normal a, w') => (Normal a, w')
    | (Throw e, w') => handler e w'
    end.

Definition process_env_AWS_S3_BUCKET : Js (option string) :=
  fun w => (Normal (env_AWS_S3_BUCKET w), w).

(** [s3.getObject(req).promise()], awaited. *)
Definition s3_getObject (req : ObjectRequest) : Js S3Object := fun w =>
  let w' := log_call (GetObject req) w in
  match s3_fault w with
  | Some e => (Throw e, w')
  | None =>
      match Bucket req with
      | None => (Throw MissingRequiredParameter, w')
      | Some b =>
          match s3_objects w !! (b, Key req) with
          | Some o => (Normal o, w')
          | None => (Throw AccessDenied, w')
          end
      end
  end.

(** [s3.putObject(req).promise()], awaited: a blind overwrite. *)
Definition s3_putObject (req : ObjectRequest) (body : string) : Js unit := fun w =>
  let w' := log_call (PutObject req body) w in
  match s3_fault w with
  | Some e => (Throw e, w')
  | None =>
      match Bucket req with
      | None => (Throw MissingRequiredParameter, w')
      | Some b => (Normal tt, store_object b (Key req) (mkObject (Some body)) w')
      end
  end.

(** [object.Body.toString()]: a [TypeError] when there is no [Body]. *)
Definition Body_toString (o : S3Object) : Js string :=
  match Body o with
  | Some b => mret b
  | None => throw TypeError
  end.

Definition JSON_parse (s : string) : Js JsValue :=
  match JSON.parse s with
  | Some v => mret v
  | None => throw SyntaxError
  end.

(* ===================================================================== *)
(** ** [getStaticProps]                                                  *)
(* ===================================================================== *)

(** The [previewData] the framework hands over: whatever was given to
    [res.setPreviewData], or nothing. *)
Inductive PreviewData : Type :=
  | PreviewUndefined
  | PreviewNull
  | PreviewFalse
  | PreviewString (s : string)
  | PreviewObject (snapshotId : option string).

Record GetStaticPropsContext : Type := mkContext {
  preview : option bool;
  previewData : PreviewData
}.

(** The props of the page, a JavaScript object: a field that the object
    does not have is [None]. *)
Record Props : Type := mkProps {
  isPreview : bool;
  snapshotId : option string;
  contents : option JsValue;
  hasError : option bool;
  message : option string
}.

Record GetStaticPropsResult : Type := mkResult { props : Props }.

Definition truthy (b : option bool) : bool :=
  match b with Some true => true | _ => false end.

(** [const { snapshotId } = previewData]: destructuring [undefined] or
    [null] throws, a primitive has no such property. *)
Definition destructure_snapshotId (pd : PreviewData) : Js (option string) :=
  match pd with
  | PreviewUndefined | PreviewNull => throw TypeError
  | PreviewFalse | PreviewString _ => mret None
  | PreviewObject sid => mret sid
  end.

(** The template literal [`${snapshotId}.json`]. *)
Definition json_key (sid : option string) : string :=
  match sid with
  | Some s => s +:+ ".json"
  | None => "undefined.json"
  end.

Definition msg_not_exist : string :=
  "The requested preview edit does not exist!".
Definition msg_connecting : string :=
  "An error has occurred while connecting to S3. Please refresh the page to try again.".

Definition getStaticProps (ctx : GetStaticPropsContext) : Js GetStaticPropsResult :=
  if truthy (preview ctx) then
    snapshotId ← destructure_snapshotId (previewData ctx);
    try_catch
      (bucket ← process_env_AWS_S3_BUCKET;
       object ← s3_getObject (mkRequest bucket (json_key snapshotId));
       body ← Body_toString object;
       contents ← JSON_parse body;
       mret (mkResult (mkProps true snapshotId (Some contents) None None)))
      (fun e =>
         mret (mkResult (mkProps false None None (Some true)
                 (Some (if decide (statusCode e = Some 403%Z)
                        then msg_not_exist else msg_connecting)))))
  else mret (mkResult (mkProps false None None None None)).

(** [const edits = props.isPreview ? props.contents : []] in [Home]. *)
Definition Home_edits (p : Props) : option JsValue :=
  if isPreview p then contents p else Some (JArray []).

(* ===================================================================== *)
(** ** The rendered document and the edit collector                      *)
(* ===================================================================== *)

(** The record that [share] builds for one editable region,
    [{ id, innerText }]. *)
Module FieldEdit.
Record t : Type := mk { id : string; innerText : string }.

Definition toJs (e : t) : JsValue :=
  JObject [("id", JString (id e)); ("innerText", JString (innerText e))].

(** A parsed value read at the type [FieldEdit]. *)
Definition ofJs (v : JsValue) : option t :=
  match v with
  | JObject ms =>
      match get_prop "id" ms, get_prop "innerText" ms with
      | Some (JString i), Some (JString x) => Some (mk i x)
      | _, _ => None
      end
  | _ => None
  end.

(** The id-to-text pairs of a sequence of edits, as a set. *)
Definition pairs (es : list t) : gset (string * string) :=
  list_to_set (map (fun e => (id e, innerText e)) es).
End FieldEdit.

Definition FieldEdits_toJs (es : list FieldEdit.t) : JsValue :=
  JArray (map FieldEdit.toJs es).

(** A parsed value read at the type [FieldEdit[]]. *)
Definition FieldEdits_ofJs (v : JsValue) : option (list FieldEdit.t) :=
  match v with
  | JArray vs => mapM FieldEdit.ofJs vs
  | _ => None
  end.

(** The tokens of one edit, and of a sequence of edits between brackets. *)
Definition edit_tokens (e : FieldEdit.t) : list token :=
  [TLBrace; TString "id"; TColon; TString (FieldEdit.id e); TComma;
   TString "innerText"; TColon; TString (FieldEdit.innerText e); TRBrace].

Fixpoint edits_tokens (es : list FieldEdit.t) : list token :=
  match es with
  | [] => []
  | [e] => edit_tokens e
  | e :: es' => edit_tokens e ++ TComma :: edits_tokens es'
  end.

Module DOM.

(** An element of the rendered document: the two attributes that the
    selector looks at, the text the browser reports for it, its children. *)
Inductive Element : Type :=
  mkElement (attr_id : option string) (attr_contenteditable : option string)
            (innerText : string) (children : list Element).

Definition attr_id (e : Element) : option string :=
  match e with mkElement i _ _ _ => i end.
Definition attr_contenteditable (e : Element) : option string :=
  match e with mkElement _ c _ _ => c end.
Definition innerText (e : Element) : string :=
  match e with mkElement _ _ x _ => x end.
Definition children (e : Element) : list Element :=
  match e with mkElement _ _ _ cs => cs end.

(** The [id] property of an element: the attribute, or the empty string. *)
Definition id (e : Element) : string := default "" (attr_id e).

(** A node of a query result, with the parent that [parentNode] gives. *)
Record Node : Type := mkNode { parentNode : Element; element : Element }.

(** [[id] > [contenteditable=true]] on an element and its parent. *)
Definition selector_matches (parent e : Element) : bool :=
  bool_decide (is_Some (attr_id parent))
  && bool_decide (attr_contenteditable e = Some "true").

(** The matches among [e] (whose parent is [parent]) and its descendants,
    in document order. *)
Fixpoint select (parent e : Element) {struct e} : list Node :=
  (if selector_matches parent e then [mkNode parent e] else [])
  ++ match e with
     | mkElement _ _ _ cs => flat_map (select e) cs
     end.

(** [document.querySelectorAll('[id] > [contenteditable=true]')]; the
    parent of the root element is the document, which is no element. *)
Definition querySelectorAll (root : Element) : list Node :=
  flat_map (select root) (children root).

End DOM.

(** [[].slice.call(els).map(({ parentNode: { id }, innerText }) =>
    ({ id, innerText }))] *)
Definition persistContents (document : DOM.Element) : list FieldEdit.t :=
  map (fun n => FieldEdit.mk (DOM.id (DOM.parentNode n)) (DOM.innerText (DOM.element n)))
      (DOM.querySelectorAll document).

(* ===================================================================== *)
(** ** The [Home] component: its state, [share] and the promise chain    *)
(* ===================================================================== *)

Record HomeState : Type := mkHome {
  currentSnapshotId : option JsValue;   (* [None] is [undefined], [JNull] is [null] *)
  isEdit : bool;
  hasSaveRequest_current : bool;        (* the ref [hasSaveRequest] *)
  isSharingView : bool;
  currentError : option JsError
}.

Definition initial_Home : HomeState := mkHome (Some JNull) false false false None.

Definition setSnapshotId (v : option JsValue) (h : HomeState) : HomeState :=
  mkHome v (isEdit h) (hasSaveRequest_current h) (isSharingView h) (currentError h).

(** [hasSaveRequest.current = sharing; _setSharing(sharing)] *)
Definition setSharing (sharing : bool) (h : HomeState) : HomeState :=
  mkHome (currentSnapshotId h) (isEdit h) sharing sharing (currentError h).

Definition setEdit (edit : bool) (h : HomeState) : HomeState :=
  mkHome (currentSnapshotId h) edit (hasSaveRequest_current h)
         (isSharingView h) (currentError h).

Definition toggleEdit (h : HomeState) : HomeState := setEdit (negb (isEdit h)) h.

Definition clearSnapshot (h : HomeState) : HomeState := setSnapshotId (Some JNull) h.

Definition setError (e : option JsError) (h : HomeState) : HomeState :=
  mkHome (currentSnapshotId h) (isEdit h) (hasSaveRequest_current h)
         (isSharingView h) e.

Definition onClearError (h : HomeState) : HomeState := setError None h.

Record FetchRequest : Type := mkFetch {
  url : string;
  method : string;
  body : string;
  content_type : string
}.

(** The page in the browser: the document, the component, and what the
    page has asked of the browser so far. *)
Record Browser : Type := mkBrowser {
  document : DOM.Element;
  home : HomeState;
  dom_queries : nat;                 (* calls of [querySelectorAll] *)
  fetches : list FetchRequest        (* calls of [fetch], oldest first *)
}.

(** How a promise ends: with a value, with an error, or never. *)
Inductive Settlement (A : Type) : Type :=
  | Fulfilled (a : A)
  | Rejected (e : JsError)
  | Forever.
Arguments Fulfilled {A} a.
Arguments Rejected {A} e.
Arguments Forever {A}.

(** A response: [ok] is a status in the 2xx range; [payload] is the text of
    its body, [None] when reading the body fails. *)
Record Response : Type := mkResponse { status : Z; payload : option string }.

Definition ok (res : Response) : bool :=
  ((200 <=? status res) && (status res <=? 299))%Z.

Definition Response_text (res : Response) : Settlement string :=
  match payload res with
  | Some t => Fulfilled t
  | None => Rejected TypeError
  end.

Definition Response_json (res : Response) : Settlement JsValue :=
  match payload res with
  | Some t =>
      match JSON.parse t with
      | Some v => Fulfilled v
      | None => Rejected SyntaxError
      end
  | None => Rejected TypeError
  end.

(** A reaction of the chain: it ends the next promise and may set state. *)
Definition Reaction (B : Type) : Type := HomeState -> Settlement B * HomeState.

Definition then_ {A B : Type} (p : Settlement A) (f : A -> Reaction B) : Reaction B :=
  fun h =>
    match p with
    | Fulfilled a => f a h
    | Rejected e => (Rejected e, h)
    | Forever => (Forever, h)
    end.

Definition catch_ {A : Type} (p : Settlement A) (f : JsError -> Reaction A) : Reaction A :=
  fun h =>
    match p with
    | Fulfilled a => (Fulfilled a, h)
    | Rejected e => f e h
    | Forever => (Forever, h)
    end.

Definition finally_ {A : Type} (p : Settlement A) (f : HomeState -> HomeState)
  : Reaction A :=
  fun h =>
    match p with
    | Fulfilled a => (Fulfilled a, f h)
    | Rejected e => (Rejected e, f h)
    | Forever => (Forever, h)
    end.

(** [new Promise(async (_, reject) => reject(new Error(await awaited)))]:
    the executor is an async function, so when [awaited] rejects, the
    executor's own promise rejects and nobody settles the new promise. *)
Definition new_Promise_rejecting {A : Type} (awaited : Settlement string) : Settlement A :=
  match awaited with
  | Fulfilled t => Rejected (new_Error t)
  | Rejected _ => Forever
  | Forever => Forever
  end.

(** [({ snapshotId }) => { setSnapshotId(snapshotId) }] *)
Definition on_saved (v : JsValue) : Reaction unit := fun h =>
  match v with
  | JNull => (Rejected TypeError, h)
  | JObject ms => (Fulfilled tt, setSnapshotId (get_prop "snapshotId" ms) h)
  | _ => (Fulfilled tt, setSnapshotId None h)
  end.

(** The chain hung on the [fetch] of [share], run once that [fetch] has
    ended as [fetched]:
    [.then(res => ...).then(({ snapshotId }) => ...).catch(...).finally(...)]. *)
Definition share_chain (fetched : Settlement Response) : Reaction unit := fun h =>
  let '(p1, h1) :=
    then_ fetched (fun res h =>
      (if ok res then Response_json res
       else new_Promise_rejecting (Response_text res), h)) h in
  let '(p2, h2) := then_ p1 on_saved h1 in
  let '(p3, h3) := catch_ p2 (fun err h => (Fulfilled tt, setError (Some err) h)) h2 in
  finally_ p3 (setSharing false) h3.

(** [share], up to the call of [fetch]. *)
Definition share (b : Browser) : Browser :=
  if hasSaveRequest_current (home b) then b
  else
    let h := setSharing true (home b) in
    let contents := persistContents (document b) in
    mkBrowser (document b) h (S (dom_queries b))
      (fetches b ++ [mkFetch "/api/save" "POST"
                       (stringify (FieldEdits_toJs contents)) "application/json"]).

(** The [fetch] of [share] has ended: its chain runs. *)
Definition fetch_settled (fetched : Settlement Response) (b : Browser) : Browser :=
  mkBrowser (document b) (snd (share_chain fetched (home b)))
            (dom_queries b) (fetches b).

(* ===================================================================== *)
(** ** The Snapshot Service                                              *)
(* ===================================================================== *)

Definition StorageWriteError (cause : JsError) : JsError :=
  mkError "StorageWriteError" (error_message cause) None (Some cause).

(** Modelled from the spec: the identifier of a snapshot, "a fresh,
    collision-resistant identifier (e.g., random token)".  The save endpoint
    [api/save] is not among the sources. *)
Definition generate_id : Js string := fun w =>
  (Normal (token_source w (tokens_drawn w)), draw_token w).

(** Modelled from the spec: [save(edits) -> SnapshotId] of the Snapshot
    Service ([api/save] is not among the sources): it generates an
    identifier, serializes [edits], writes the document under ["<id>.json"]
    and returns the identifier; a failed write fails the operation with a
    [StorageWriteError] that carries the cause.  One store write, no retry. *)
Definition save (edits : list FieldEdit.t) : Js string :=
  id ← generate_id;
  bucket ← process_env_AWS_S3_BUCKET;
  _ ← try_catch
        (s3_putObject (mkRequest bucket (id +:+ ".json"))
                      (stringify (FieldEdits_toJs edits)))
        (fun e => throw (StorageWriteError e));
  mret id.

(** Modelled from the spec: the save endpoint, [POST /save] with a JSON body
    that is a sequence of edits; a 2xx response [{ snapshotId }] on success,
    a non-2xx response with a plain-text error body on failure. *)
Definition api_save (req : FetchRequest) : World -> Response * World := fun w =>
  match JSON.parse (body req) ≫= FieldEdits_ofJs with
  | Some edits =>
      match save edits w with
      | (Normal id, w') =>
          (mkResponse 200 (Some (stringify (JObject [("snapshotId", JString id)]))), w')
      | (Throw e, w') => (mkResponse 500 (Some (error_message e)), w')
      end
  | None => (mkResponse 400 (Some "Bad Request"), w)
  end.

(** The endpoint serves the requests in the order they were sent. *)
Fixpoint serve (reqs : list FetchRequest) (w : World) : list Response * World :=
  match reqs with
  | [] => ([], w)
  | r :: reqs' =>
      let '(res, w') := api_save r w in
      let '(ress, w'') := serve reqs' w' in
      (res :: ress, w'')
  end.

Definition is_write (c : S3Call) : bool :=
  match c with PutObject _ _ => true | GetObject _ => false end.

(** The store writes among the calls made so far. *)
Definition store_writes (w : World) : nat := length (filter is_write (s3_calls w)).

(* ===================================================================== *)
(** ** What the read inside [try] comes to                               *)
(* ===================================================================== *)

Inductive ReadResult : Type :=
  | ReadOk (v : JsValue)
  | ReadFailed (e : JsError).

(** The outcome of the read of the snapshot [sid] in the world [w]: the
    request is rejected, or the object has no body, or the body is no JSON
    document, or the body is a JSON document. *)
Inductive reads (sid : option string) (w : World) : ReadResult -> World -> Prop :=
  | reads_rejected e w' :
      s3_getObject (mkRequest (env_AWS_S3_BUCKET w) (json_key sid)) w = (Throw e, w') ->
      reads sid w (ReadFailed e) w'
  | reads_no_body o w' :
      s3_getObject (mkRequest (env_AWS_S3_BUCKET w) (json_key sid)) w = (Normal o, w') ->
      Body o = None ->
      reads sid w (ReadFailed TypeError) w'
  | reads_malformed o b w' :
      s3_getObject (mkRequest (env_AWS_S3_BUCKET w) (json_key sid)) w = (Normal o, w') ->
      Body o = Some b ->
      JSON.parse b = None ->
      reads sid w (ReadFailed SyntaxError) w'
  | reads_document o b v w' :
      s3_getObject (mkRequest (env_AWS_S3_BUCKET w) (json_key sid)) w = (Normal o, w') ->
      Body o = Some b ->
      JSON.parse b = Some v ->
      reads sid w (ReadOk v) w'.

(** The props that the [catch] block builds from the error it caught. *)
Definition error_props (e : JsError) : Props :=
  mkProps false None None (Some true)
    (Some (if decide (statusCode e = Some 403%Z) then msg_not_exist else msg_connecting)).

Definition props_of_read (sid : option string) (r : ReadResult) : Props :=
  match r with
  | ReadOk v => mkProps true sid (Some v) None None
  | ReadFailed e => error_props e
  end.

(** The error results in the spec's words. *)
Definition spec_not_found_props : Props :=
  mkProps false None None (Some true) (Some "requested preview edit does not exist").
Definition spec_connectivity_props : Props :=
  mkProps false None None (Some true)
          (Some "storage connectivity error, retry by reloading").

(* ===================================================================== *)
(** ** The collector in the spec's words, and where a node sits          *)
(* ===================================================================== *)

(** [child_in root p e]: [e] is a child of [p], and [p] is [root] or an
    element below [root]. *)
Inductive child_in : DOM.Element -> DOM.Element -> DOM.Element -> Prop :=
  | child_here root e :
      In e (DOM.children root) -> child_in root root e
  | child_below root c p e :
      In c (DOM.children root) -> child_in c p e -> child_in root p e.

(** The collector as the spec words it: every element marked editable, with
    its nearest identified ancestor (if any) as the region, and its text. *)
Fixpoint spec_collect_from (region : option string) (e : DOM.Element)
  : list (option string * string) :=
  (if bool_decide (DOM.attr_contenteditable e = Some "true")
   then [(region, DOM.innerText e)] else [])
  ++ match e with
     | DOM.mkElement i _ _ cs =>
         flat_map (spec_collect_from (match i with Some _ => i | None => region end)) cs
     end.

Definition spec_collect (root : DOM.Element) : list (option string * string) :=
  spec_collect_from None root.

(* ===================================================================== *)
(** ** Places in the document, and the order of the document             *)
(* ===================================================================== *)

(** The element at a path from [e]: the empty path is [e] itself, and
    [i :: path] goes on from the child number [i]. *)
Fixpoint element_at (e : DOM.Element) (path : list nat) : option DOM.Element :=
  match path with
  | [] => Some e
  | i :: path' =>
      match nth_error (DOM.children e) i with
      | Some c => element_at c path'
      | None => None
      end
  end.

(** Document order on paths: an element comes before its descendants, and
    all of a child comes before the next child. *)
Fixpoint path_lt (a b : list nat) : Prop :=
  match a, b with
  | [], [] => False
  | [], _ :: _ => True
  | _ :: _, [] => False
  | i :: a', j :: b' => i < j \/ (i = j /\ path_lt a' b')
  end.

(** The element at [path] is marked editable and is the child of an element
    with an [id] attribute (the element one step up the path). *)
Definition matched (doc : DOM.Element) (path : list nat) : Prop :=
  exists p x,
    path <> []
    /\ element_at doc (removelast path) = Some p
    /\ element_at doc path = Some x
    /\ is_Some (DOM.attr_id p)
    /\ DOM.attr_contenteditable x = Some "true".

Section indexed.
Variable f : DOM.Element -> list (list nat).

(** The paths that [f] gives for each child, each under the number of its
    child, counting from [i]. *)
Fixpoint indexed_paths (cs : list DOM.Element) (i : nat) : list (list nat) :=
  match cs with
  | [] => []
  | c :: cs' => map (cons i) (f c) ++ indexed_paths cs' (S i)
  end.
End indexed.

(** The paths, from [e], of the matches at and below [e], whose parent is
    [parent]: the places that [DOM.select] visits, in its order. *)
Fixpoint paths_in (parent e : DOM.Element) {struct e} : list (list nat) :=
  (if DOM.selector_matches parent e then [[]] else [])
  ++ match e with
     | DOM.mkElement _ _ _ cs => indexed_paths (paths_in e) cs 0
     end.

(** The paths of the nodes of the query, from the root. *)
Definition editable_paths (root : DOM.Element) : list (list nat) :=
  indexed_paths (paths_in root) (DOM.children root) 0.

(** The node at a path that is not empty, with its parent one step up. *)
Definition node_at (e : DOM.Element) (path : list nat) : option DOM.Node :=
  match element_at e (removelast path), element_at e path with
  | Some p, Some x => Some (DOM.mkNode p x)
  | _, _ => None
  end.

(** The node at a path from [e], whose parent is [parent]: [e] itself with
    [parent] at the empty path. *)
Definition node_in (parent e : DOM.Element) (path : list nat) : option DOM.Node :=
  match path with
  | [] => Some (DOM.mkNode parent e)
  | _ :: _ => node_at e path
  end.

(** One identified parent with two editable children. *)
Definition twin_document : DOM.Element :=
  DOM.mkElement None None "ab" [
    DOM.mkElement (Some "a") None "ab"
      [DOM.mkElement None (Some "true") "first" [];
       DOM.mkElement None (Some "true") "second" []]].

(* ===================================================================== *)
(** ** Sample worlds, documents and pages                                *)
(* ===================================================================== *)

(** A reachable bucket with nothing in it; the next identifier is abc123. *)
Definition empty_world : World :=
  mkWorld (Some "preview-snapshots") ∅ None [] (fun _ => "abc123") 0.

Definition NetworkingError : JsError :=
  mkError "NetworkingError" "connect ETIMEDOUT" None None.

(** The same bucket behind a network that is down. *)
Definition unreachable_world : World :=
  mkWorld (Some "preview-snapshots") ∅ (Some NetworkingError) [] (fun _ => "abc123") 0.

Definition title_edit : FieldEdit.t := FieldEdit.mk "title" "Hello".

(** A heading [title] and a paragraph [explanation-1], each with its
    editable child, as [Malleable] renders them. *)
Definition sample_document : DOM.Element :=
  DOM.mkElement None None "Hello World" [
    DOM.mkElement (Some "title") None "Hello"
      [DOM.mkElement None (Some "true") "Hello" []];
    DOM.mkElement (Some "explanation-1") None "World"
      [DOM.mkElement None (Some "true") "World" []]].

(** An editable element whose parent has no id; its grandparent has one. *)
Definition nested_document : DOM.Element :=
  DOM.mkElement None None "x" [
    DOM.mkElement (Some "outer") None "x"
      [DOM.mkElement None None "x"
         [DOM.mkElement None (Some "true") "x" []]]].

Definition sample_page : Browser := mkBrowser sample_document initial_Home 0 [].

(* ===================================================================== *)
(** ** What [Home] renders                                               *)
(* ===================================================================== *)

(** A number literal as a mantissa and a power of ten; the sign is dropped. *)
Inductive dphase : Type := DInt | DFrac | DExp.

Fixpoint read_decimal (s : string) (ph : dphase) (m : N) (fl : Z)
         (eneg : bool) (e : Z) : N * Z :=
  match s with
  | "" => (m, ((if eneg then - e else e) - fl)%Z)
  | String c s' =>
      if is_digit c then
        let d := (N_of_ascii c - 48)%N in
        match ph with
        | DInt => read_decimal s' DInt (10 * m + d)%N fl eneg e
        | DFrac => read_decimal s' DFrac (10 * m + d)%N (fl + 1)%Z eneg e
        | DExp => read_decimal s' DExp m fl eneg (10 * e + Z.of_N d)%Z
        end
      else if bool_decide (c = "."%char) then read_decimal s' DFrac m fl eneg e
      else if bool_decide (c = "e"%char) || bool_decide (c = "E"%char)
      then read_decimal s' DExp m fl eneg e
      else if bool_decide (c = "-"%char) then
        match ph with
        | DExp => read_decimal s' DExp m fl true e
        | _ => read_decimal s' ph m fl eneg e
        end
      else read_decimal s' ph m fl eneg e
  end.

(** The number that a literal denotes is zero as a double: its mantissa is
    zero, or it is at most half the least positive double, 2^-1075 (a tie
    rounds to the even neighbour, which is zero). *)
Definition number_is_zero (lit : string) : bool :=
  let '(m, k) := read_decimal lit DInt 0 0 false 0 in
  (m =? 0)%N || ((k <? 0)%Z && (Z.of_N m * 2 ^ 1075 <=? 10 ^ (- k))%Z).

(** [ToBoolean] on a parsed value. *)
Definition ToBoolean (v : JsValue) : bool :=
  match v with
  | JNull => false
  | JBool b => b
  | JNumber lit => negb (number_is_zero lit)
  | JString s => negb (bool_decide (s = ""))
  | JArray _ | JObject _ => true
  end.

(** One child of the page, as React is given it. *)
Inductive Child : Type :=
  | Nothing                                  (* false, null, undefined *)
  | Text (s : string)
  | ErrorDialog (shown : string)             (* the <pre> of the dialog *)
  | ShareLinkDialog (id : JsValue)
  | PreviewBanner                            (* <aside role=alert> *)
  | Oops (reason : option string)
  | ContentView (isEdit : bool) (edits : option JsValue)
  | SnapshotBar (isSharing : bool)
  | EditButton.

(** [x && <X/>] with [x] falsy is [x] itself: React shows nothing for
    [false] and [null], the empty text for the empty string, and [0] for a
    zero. *)
Definition falsy_child (v : JsValue) : Child :=
  match v with
  | JString _ => Text ""
  | JNumber _ => Text "0"
  | _ => Nothing
  end.

(** The [return] of [Home], from the top: the error dialog, the share link
    dialog, the preview banner, the page proper (the error panel or
    [Content]), the tool bar.  The constant [Head] is left out, and the
    layout [div] around the banner and the page proper is not kept. *)
Definition Home (p : Props) (h : HomeState) : list Child :=
  [ match currentError h with
    | Some e => ErrorDialog (error_message e)
    | None => Nothing
    end;
    match currentSnapshotId h with
    | Some v => if ToBoolean v then ShareLinkDialog v else falsy_child v
    | None => Nothing
    end;
    if isPreview p || truthy (hasError p) then PreviewBanner else Nothing;
    if truthy (hasError p) then Oops (message p)
    else ContentView (isEdit h) (Home_edits p);
    if isEdit h then SnapshotBar (isSharingView h) else EditButton ].

(* ===================================================================== *)
(** ** A session of the page: triggers of [share] and ends of [fetch]    *)
(* ===================================================================== *)

Inductive Event : Type :=
  | Click_share
  | Fetch_ends (r : Response + JsError).   (* a response, or a rejection *)

Definition settlement_of (r : Response + JsError) : Settlement Response :=
  match r with
  | inl res => Fulfilled res
  | inr e => Rejected e
  end.

(** The page together with the number of its [fetch] calls that have not
    ended yet. *)
Record Session : Type := mkSession { page : Browser; in_flight : nat }.

Definition step (s : Session) (ev : Event) : Session :=
  match ev with
  | Click_share =>
      let b' := share (page s) in
      mkSession b' (in_flight s + (length (fetches b') - length (fetches (page s))))
  | Fetch_ends r =>
      match in_flight s with
      | O => s                                   (* nothing is in flight *)
      | S n => mkSession (fetch_settled (settlement_of r) (page s)) n
      end
  end.

Definition run_events (s : Session) (evs : list Event) : Session :=
  fold_left step evs s.

(** What every session keeps: at most one [fetch] has not ended, the guard
    is set while one has not, and the sharing view flag equals the guard. *)
Definition single_flight (s : Session) : Prop :=
  in_flight s <= 1
  /\ (in_flight s = 1 -> hasSaveRequest_current (home (page s)) = true)
  /\ isSharingView (home (page s)) = hasSaveRequest_current (home (page s)).

(* ===================================================================== *)
(** ** [JSON.parse] reads back what [JSON.stringify] wrote               *)
(* ===================================================================== *)

Section json_round_trip.

Lemma string_app_cons (c : ascii) (s t : string) : String c s +:+ t = String c (s +:+ t).
Proof. reflexivity. Qed.

Lemma string_app_nil_l (t : string) : "" +:+ t = t.
Proof. reflexivity. Qed.

Lemma string_app_nil_r (s : string) : s +:+ "" = s.
Proof. induction s as [|c s IH]; [done|]. by rewrite string_app_cons, IH. Qed.

Lemma string_app_assoc (s t u : string) : (s +:+ t) +:+ u = s +:+ t +:+ u.
Proof. induction s as [|c s IH]; [done|]. by rewrite !string_app_cons, IH. Qed.

Lemma rev_app_rev_app (s a b : string) :
  String.rev_app (String.rev_app s a) b = String.rev_app a (s +:+ b).
Proof.
  revert a. induction s as [|c s IH]; intros a; [done|].
  simpl. by rewrite IH.
Qed.

Lemma rev_rev_app (s : string) : String.rev (String.rev_app s "") = s.
Proof. unfold String.rev. by rewrite rev_app_rev_app, string_app_nil_r. Qed.

Lemma lex_run_app (st : lstate) (s1 s2 : string) :
  lex_run st (s1 +:+ s2) = lex_then (lex_run st s1) s2.
Proof.
  revert st. induction s1 as [|c s1 IH]; intros st.
  - rewrite string_app_nil_l. simpl. by destruct (lex_run st s2) as [[??]|].
  - rewrite string_app_cons. simpl. destruct (lex_step st c) as [[ts st']|]; [|done].
    rewrite IH. destruct (lex_run st' s1) as [[ts1 st1]|]; [|done].
    simpl. destruct (lex_run st1 s2) as [[ts2 st2]|]; [|done].
    by rewrite app_assoc.
Qed.

(** One quoted character is read back as that character. *)
Lemma lex_escape_char (c : ascii) (acc : string) :
  lex_run (LStr acc) (escape_char c) = Some ([], LStr (String c acc)).
Proof. destruct c as [[] [] [] [] [] [] [] []]; reflexivity. Qed.

Lemma lex_escape (s acc : string) :
  lex_run (LStr acc) (escape s) = Some ([], LStr (String.rev_app s acc)).
Proof.
  revert acc. induction s as [|c s IH]; intros acc; [done|].
  simpl. rewrite lex_run_app, lex_escape_char. simpl. by rewrite IH.
Qed.

Lemma lex_quote (s : string) :
  lex_run LStart (quote s) = Some ([TString s], LStart).
Proof.
  unfold quote. simpl. rewrite lex_run_app, lex_escape. simpl.
  by rewrite rev_rev_app.
Qed.

Lemma prun_app (st : pstate) (ts1 ts2 : list token) :
  prun st (ts1 ++ ts2) = prun st ts1 ≫= fun st' => prun st' ts2.
Proof.
  revert st. induction ts1 as [|t ts1 IH]; intros st; [done|].
  simpl. destruct (pstep st t) as [st'|]; [apply IH|done].
Qed.

Lemma lex_run_seq (st st1 : lstate) (s1 s2 : string) (ts : list token) :
  lex_run st s1 = Some (ts, st1) ->
  lex_run st (s1 +:+ s2) = emit ts (lex_run st1 s2).
Proof. intros H. by rewrite lex_run_app, H. Qed.

Lemma stringify_edit (e : FieldEdit.t) :
  stringify (FieldEdit.toJs e)
  = "{" +:+ quote "id" +:+ ":" +:+ quote (FieldEdit.id e) +:+ ","
        +:+ quote "innerText" +:+ ":" +:+ quote (FieldEdit.innerText e) +:+ "}".
Proof.
  destruct e as [i x]. unfold FieldEdit.toJs, stringify, join, map, fst, snd.
  simpl FieldEdit.id. simpl FieldEdit.innerText.
  by rewrite !string_app_assoc.
Qed.

Lemma lex_edit (e : FieldEdit.t) :
  lex_run LStart (stringify (FieldEdit.toJs e)) = Some (edit_tokens e, LStart).
Proof.
  rewrite stringify_edit.
  repeat (erewrite lex_run_seq by first [apply lex_quote | reflexivity]).
  reflexivity.
Qed.

Lemma lex_edits (es : list FieldEdit.t) :
  lex_run LStart (join "," (map stringify (map FieldEdit.toJs es)))
  = Some (edits_tokens es, LStart).
Proof.
  induction es as [|e es IH]; [done|].
  destruct es as [|e' es].
  - simpl. apply lex_edit.
  - change (lex_run LStart
              (stringify (FieldEdit.toJs e) +:+ "," +:+
               join "," (map stringify (map FieldEdit.toJs (e' :: es))))
            = Some (edit_tokens e ++ TComma :: edits_tokens (e' :: es), LStart)).
    erewrite lex_run_seq by apply lex_edit.
    erewrite lex_run_seq by reflexivity.
    rewrite IH. reflexivity.
Qed.

Lemma tokenize_edits (es : list FieldEdit.t) :
  tokenize (stringify (FieldEdits_toJs es))
  = Some (TLBracket :: edits_tokens es ++ [TRBracket]).
Proof.
  unfold tokenize, FieldEdits_toJs, stringify. fold stringify.
  erewrite lex_run_seq by reflexivity.
  erewrite lex_run_seq by apply lex_edits.
  simpl. by rewrite !app_nil_r.
Qed.

Lemma prun_edit (e : FieldEdit.t) (acc : list JsValue) (stk : list frame) :
  prun (SVal (FArr acc :: stk)) (edit_tokens e)
  = Some (SArrNext (FieldEdit.toJs e :: acc) stk).
Proof. reflexivity. Qed.

Lemma prun_edits (es : list FieldEdit.t) (acc : list JsValue) (stk : list frame) :
  es ≠ [] ->
  prun (SVal (FArr acc :: stk)) (edits_tokens es)
  = Some (SArrNext (rev (map FieldEdit.toJs es) ++ acc) stk).
Proof.
  revert acc. induction es as [|e es IH]; intros acc Hne; [done|].
  destruct es as [|e' es].
  - apply prun_edit.
  - change (edits_tokens (e :: e' :: es))
      with (edit_tokens e ++ TComma :: edits_tokens (e' :: es)).
    rewrite prun_app, prun_edit. simpl mbind. simpl option_bind.
    change (prun (SArrNext (FieldEdit.toJs e :: acc) stk)
                 (TComma :: edits_tokens (e' :: es)))
      with (prun (SVal (FArr (FieldEdit.toJs e :: acc) :: stk))
                 (edits_tokens (e' :: es))).
    rewrite IH by done.
    change (map FieldEdit.toJs (e :: e' :: es))
      with (FieldEdit.toJs e :: map FieldEdit.toJs (e' :: es)).
    change (rev (FieldEdit.toJs e :: map FieldEdit.toJs (e' :: es)))
      with (rev (map FieldEdit.toJs (e' :: es)) ++ [FieldEdit.toJs e]).
    by rewrite <- app_assoc.
Qed.

(** [JSON.parse(JSON.stringify(edits))] gives the same records back. *)
Lemma parse_stringify_edits (es : list FieldEdit.t) :
  JSON.parse (stringify (FieldEdits_toJs es)) = Some (FieldEdits_toJs es).
Proof.
  unfold JSON.parse. rewrite tokenize_edits.
  destruct es as [|e es]; [reflexivity|].
  change (prun (SVal []) (TLBracket :: edits_tokens (e :: es) ++ [TRBracket]))
    with (prun (SArrFirst []) (edits_tokens (e :: es) ++ [TRBracket])).
  assert (prun (SArrFirst []) (edits_tokens (e :: es) ++ [TRBracket])
          = prun (SVal [FArr []]) (edits_tokens (e :: es) ++ [TRBracket])) as ->.
  { destruct es; reflexivity. }
  rewrite prun_app, prun_edits by done.
  rewrite app_nil_r. simpl mbind. simpl option_bind. simpl prun.
  unfold deliver, FieldEdits_toJs.
  change (rev (map FieldEdit.toJs es) ++ [FieldEdit.toJs e])
    with (rev (map FieldEdit.toJs (e :: es))).
  by rewrite rev_involutive.
Qed.

(** The parser on a few documents: white space, numbers, escapes, a
    repeated key (the last value wins), and what it refuses. *)
Example parse_document :
  JSON.parse (" { " +:+ quote "a" +:+ " : [1, -2.5e+3 ,true,null, []] } ")
  = Some (JObject [("a", JArray [JNumber "1"; JNumber "-2.5e+3"; JBool true;
                                 JNull; JArray []])]).
Proof. reflexivity. Qed.

Example parse_escapes :
  JSON.parse (String "034" ("A\n\/" +:+ String "034" ""))
  = Some (JString (String "A" (String "010" "/"))).
Proof. reflexivity. Qed.

Example parse_repeated_key :
  JSON.parse ("{" +:+ quote "k" +:+ ":1," +:+ quote "k" +:+ ":2}")
  = Some (JObject [("k", JNumber "2")]).
Proof. reflexivity. Qed.

Example parse_refuses :
  (JSON.parse "[1,]", JSON.parse "01", JSON.parse "tru", JSON.parse "[1 2]",
   JSON.parse "", JSON.parse "1.", JSON.parse "[{")
  = (None, None, None, None, None, None, None).
Proof. reflexivity. Qed.

Example parse_stringify_nested :
  JSON.parse (stringify (JObject [("a", JArray [JNumber "1"; JString (String "010" "x");
                                                JObject []]);
                                  ("b", JNull)]))
  = Some (JObject [("a", JArray [JNumber "1"; JString (String "010" "x"); JObject []]);
                   ("b", JNull)]).
Proof. reflexivity. Qed.

Lemma FieldEdit_ofJs_toJs (e : FieldEdit.t) : FieldEdit.ofJs (FieldEdit.toJs e) = Some e.
Proof. by destruct e. Qed.

Lemma FieldEdits_ofJs_toJs (es : list FieldEdit.t) :
  FieldEdits_ofJs (FieldEdits_toJs es) = Some es.
Proof.
  unfold FieldEdits_ofJs, FieldEdits_toJs.
  induction es as [|e es IH]; [done|].
  simpl. rewrite IH. by destruct e.
Qed.

End json_round_trip.

(* ===================================================================== *)
(** ** [getStaticProps]: what it returns                                 *)
(* ===================================================================== *)

Lemma reads_total (sid : option string) (w : World) :
  exists r w', reads sid w r w'.
Proof.
  destruct (s3_getObject (mkRequest (env_AWS_S3_BUCKET w) (json_key sid)) w)
    as [[o|e] w'] eqn:Hget.
  - destruct (Body o) as [b|] eqn:Hb.
    + destruct (JSON.parse b) as [v|] eqn:Hp.
      * exists (ReadOk v), w'. by eapply reads_document.
      * exists (ReadFailed SyntaxError), w'. by eapply reads_malformed.
    + exists (ReadFailed TypeError), w'. by eapply reads_no_body.
  - exists (ReadFailed e), w'. by apply reads_rejected.
Qed.

Lemma s3_getObject_logs (req : ObjectRequest) (w w' : World) (c : Completion S3Object) :
  s3_getObject req w = (c, w') -> w' = log_call (GetObject req) w.
Proof.
  unfold s3_getObject. intros H.
  destruct (s3_fault w); [by inversion H|].
  destruct (Bucket req); [|by inversion H].
  destruct (s3_objects w !! _); by inversion H.
Qed.

Lemma reads_logs (sid : option string) (w w' : World) (r : ReadResult) :
  reads sid w r w' ->
  w' = log_call (GetObject (mkRequest (env_AWS_S3_BUCKET w) (json_key sid))) w.
Proof. destruct 1; by eapply s3_getObject_logs. Qed.

(** In preview mode, with a [previewData] that is an object, the result
    of [getStaticProps] is the outcome of the read, turned into props. *)
Lemma getStaticProps_reads (sid : option string) (w w' : World) (r : ReadResult) :
  reads sid w r w' ->
  getStaticProps (mkContext (Some true) (PreviewObject sid)) w
  = (Normal (mkResult (props_of_read sid r)), w').
Proof.
  intros Hr. unfold getStaticProps, try_catch, Body_toString, JSON_parse,
    process_env_AWS_S3_BUCKET, mbind, Js_bind, mret, Js_ret, throw.
  simpl. destruct Hr as [e w' Hget|o w' Hget Hb|o b w' Hget Hb Hp|o b v w' Hget Hb Hp];
    rewrite Hget; try rewrite Hb; try rewrite Hp; reflexivity.
Qed.

(** What [previewData] is, beyond the [snapshotId] it gives, does not matter. *)
Lemma getStaticProps_destructured (p : option bool) (pd : PreviewData)
      (sid : option string) (w : World) :
  truthy p = true ->
  destructure_snapshotId pd = mret sid ->
  getStaticProps (mkContext p pd) w
  = getStaticProps (mkContext (Some true) (PreviewObject sid)) w.
Proof.
  intros Hp Hd. unfold getStaticProps, mbind, Js_bind. simpl.
  rewrite Hp, Hd. reflexivity.
Qed.


(** C2.  Outside preview mode ([preview] false or absent), whatever
    [previewData] is and whatever the state of the store, [getStaticProps]
    returns exactly [{ isPreview: false }] and leaves the world as it was:
    in particular it sends no request to the store. *)
Theorem getStaticProps_not_preview (pd : PreviewData) (w : World) :
  getStaticProps (mkContext (Some false) pd) w
    = (Normal (mkResult (mkProps false None None None None)), w)
  /\ getStaticProps (mkContext None pd) w
    = (Normal (mkResult (mkProps false None None None None)), w)
  /\ s3_calls (snd (getStaticProps (mkContext (Some false) pd) w)) = s3_calls w
  /\ s3_calls (snd (getStaticProps (mkContext None pd) w)) = s3_calls w.
Proof. repeat split. Qed.

(** C3.  In preview mode with the snapshot identifier [s], when the read
    of the snapshot succeeds (the request is answered with an object whose
    body is a JSON document [v]), [getStaticProps] has sent exactly one
    request, a [getObject] for the key [s] followed by [.json], and returns
    [isPreview] true, the same [snapshotId] and the parsed document as
    [contents]; when the document is a sequence of edits, the [edits] that
    [Home] takes from the props are that sequence. *)
Theorem getStaticProps_preview_success
        (s : string) (w w' : World) (v : JsValue) :
  reads (Some s) w (ReadOk v) w' ->
  getStaticProps (mkContext (Some true) (PreviewObject (Some s))) w
    = (Normal (mkResult (mkProps true (Some s) (Some v) None None)), w')
  /\ s3_calls w'
     = s3_calls w ++ [GetObject (mkRequest (env_AWS_S3_BUCKET w) (s +:+ ".json"))]
  /\ (forall es, v = FieldEdits_toJs es ->
        Home_edits (mkProps true (Some s) (Some v) None None) ≫= FieldEdits_ofJs
        = Some es).
Proof.
  intros Hr. split; [exact (getStaticProps_reads _ _ _ _ Hr)|].
  split; [by rewrite (reads_logs _ _ _ _ Hr)|].
  intros es ->. simpl. apply FieldEdits_ofJs_toJs.
Qed.

Lemma getStaticProps_preview_success_witness :
  getStaticProps (mkContext (Some true) (PreviewObject (Some "abc123")))
    (store_object "preview-snapshots" "abc123.json"
       (mkObject (Some (stringify (FieldEdits_toJs [title_edit])))) empty_world)
  = (Normal (mkResult (mkProps true (Some "abc123")
                         (Some (FieldEdits_toJs [title_edit])) None None)),
     log_call (GetObject (mkRequest (Some "preview-snapshots") "abc123.json"))
       (store_object "preview-snapshots" "abc123.json"
          (mkObject (Some (stringify (FieldEdits_toJs [title_edit])))) empty_world)).
Proof.
  refine (proj1 (getStaticProps_preview_success "abc123"
           (store_object "preview-snapshots" "abc123.json"
              (mkObject (Some (stringify (FieldEdits_toJs [title_edit])))) empty_world)
           _ _ _)).
  eapply reads_document; [vm_compute; reflexivity | reflexivity | vm_compute; reflexivity].
Defined.

(** C4 as stated fails: for a snapshot that was never written the store
    answers 403, and the message of the result is not the spec's. *)
Lemma not_found_message_differs :
  reads (Some "abc123") empty_world (ReadFailed AccessDenied)
        (log_call (GetObject (mkRequest (Some "preview-snapshots") "abc123.json"))
                  empty_world)
  /\ statusCode AccessDenied = Some 403%Z
  /\ fst (getStaticProps (mkContext (Some true) (PreviewObject (Some "abc123")))
                         empty_world)
     <> Normal (mkResult spec_not_found_props).
Proof.
  split; [by apply reads_rejected|]. split; [reflexivity|].
  vm_compute. discriminate.
Qed.

(** C4, amended.  In preview mode, when the read fails with an error whose
    [statusCode] is 403, [getStaticProps] returns [isPreview] false,
    [hasError] true and the message
    [The requested preview edit does not exist!]. *)
Theorem getStaticProps_not_found
        (sid : option string) (w w' : World) (e : JsError) :
  reads sid w (ReadFailed e) w' ->
  statusCode e = Some 403%Z ->
  getStaticProps (mkContext (Some true) (PreviewObject sid)) w
  = (Normal (mkResult (mkProps false None None (Some true)
                         (Some "The requested preview edit does not exist!"))), w').
Proof.
  intros Hr He. rewrite (getStaticProps_reads _ _ _ _ Hr).
  simpl. unfold error_props. rewrite He. reflexivity.
Qed.

Lemma getStaticProps_not_found_witness :
  getStaticProps (mkContext (Some true) (PreviewObject (Some "abc123"))) empty_world
  = (Normal (mkResult (mkProps false None None (Some true)
                         (Some "The requested preview edit does not exist!"))),
     log_call (GetObject (mkRequest (Some "preview-snapshots") "abc123.json"))
              empty_world).
Proof.
  apply (getStaticProps_not_found (Some "abc123") empty_world _ AccessDenied).
  - apply reads_rejected. reflexivity.
  - reflexivity.
Defined.

(** C5 as stated fails: behind a network that is down the read fails with
    an error that is no 403, and the message of the result is not the
    spec's. *)
Lemma connectivity_message_differs :
  reads (Some "abc123") unreachable_world (ReadFailed NetworkingError)
        (log_call (GetObject (mkRequest (Some "preview-snapshots") "abc123.json"))
                  unreachable_world)
  /\ statusCode NetworkingError <> Some 403%Z
  /\ fst (getStaticProps (mkContext (Some true) (PreviewObject (Some "abc123")))
                         unreachable_world)
     <> Normal (mkResult spec_connectivity_props).
Proof.
  split; [by apply reads_rejected|]. split; [discriminate|].
  vm_compute. discriminate.
Qed.

(** C5, amended.  In preview mode, when the read fails for any reason other
    than a 403 (a rejected request with another status or with none, an
    object without body, a body that is no JSON document),
    [getStaticProps] returns [isPreview] false, [hasError] true and the
    message [An error has occurred while connecting to S3. Please refresh
    the page to try again.]. *)
Theorem getStaticProps_connectivity
        (sid : option string) (w w' : World) (e : JsError) :
  reads sid w (ReadFailed e) w' ->
  statusCode e <> Some 403%Z ->
  getStaticProps (mkContext (Some true) (PreviewObject sid)) w
  = (Normal (mkResult (mkProps false None None (Some true)
       (Some "An error has occurred while connecting to S3. Please refresh the page to try again."))),
     w').
Proof.
  intros Hr He. rewrite (getStaticProps_reads _ _ _ _ Hr).
  simpl. unfold error_props. by destruct (decide (statusCode e = Some 403%Z)).
Qed.

Lemma getStaticProps_connectivity_witness :
  (* a malformed document *)
  getStaticProps (mkContext (Some true) (PreviewObject (Some "abc123")))
    (store_object "preview-snapshots" "abc123.json" (mkObject (Some "[{")) empty_world)
  = (Normal (mkResult (mkProps false None None (Some true)
       (Some "An error has occurred while connecting to S3. Please refresh the page to try again."))),
     log_call (GetObject (mkRequest (Some "preview-snapshots") "abc123.json"))
       (store_object "preview-snapshots" "abc123.json" (mkObject (Some "[{")) empty_world)).
Proof.
  apply (getStaticProps_connectivity (Some "abc123")
           (store_object "preview-snapshots" "abc123.json" (mkObject (Some "[{"))
                         empty_world) _ SyntaxError).
  - eapply reads_malformed; [vm_compute; reflexivity | reflexivity | vm_compute; reflexivity].
  - discriminate.
Defined.

(** C6 as stated fails: in preview mode with no [previewData], the
    destructuring before the [try] block throws, and [getStaticProps]
    raises a [TypeError] to its caller. *)
Lemma getStaticProps_raises_without_previewData :
  getStaticProps (mkContext (Some true) PreviewUndefined) empty_world
  = (Throw TypeError, empty_world).
Proof. reflexivity. Qed.

(** C6, amended.  For every context that is outside preview mode, or in
    preview mode with a [previewData] other than [undefined] and [null]
    (an object with or without [snapshotId], a string, [false]), and for
    every state of the store, [getStaticProps] returns props and does not
    raise: every failure of the read is in the props it returns. *)
Theorem getStaticProps_never_raises (ctx : GetStaticPropsContext) (w : World) :
  (truthy (preview ctx) = true ->
   previewData ctx <> PreviewUndefined /\ previewData ctx <> PreviewNull) ->
  exists p w',
    getStaticProps ctx w = (Normal (mkResult p), w')
    /\ (truthy (preview ctx) = true ->
        exists sid r, reads sid w r w' /\ p = props_of_read sid r).
Proof.
  destruct ctx as [p pd]. simpl. intros Hpd.
  destruct (truthy p) eqn:Hp.
  - destruct (Hpd eq_refl) as [Hu Hn].
    assert (exists sid, destructure_snapshotId pd = mret sid) as [sid Hsid].
    { destruct pd; try done; by eexists. }
    destruct (reads_total sid w) as (r & w' & Hr).
    exists (props_of_read sid r), w'. split.
    + rewrite (getStaticProps_destructured p pd sid w Hp Hsid).
      by apply getStaticProps_reads.
    + intros _. by exists sid, r.
  - exists (mkProps false None None None None), w. split; [|done].
    unfold getStaticProps. simpl. by rewrite Hp.
Qed.

Lemma getStaticProps_never_raises_witness :
  exists p w',
    getStaticProps (mkContext (Some true) (PreviewObject None)) unreachable_world
    = (Normal (mkResult p), w')
    /\ (truthy (Some true) = true ->
        exists sid r, reads sid unreachable_world r w' /\ p = props_of_read sid r).
Proof.
  apply (getStaticProps_never_raises
           (mkContext (Some true) (PreviewObject None)) unreachable_world).
  intros _. split; discriminate.
Defined.

(** C9.  In every result that [getStaticProps] returns, [isPreview] true
    and [hasError] true exclude each other: props with [isPreview] true
    have neither [hasError] nor [message], and props with [hasError] true
    have [isPreview] false. *)
Theorem getStaticProps_preview_xor_error
        (ctx : GetStaticPropsContext) (w w' : World) (r : GetStaticPropsResult) :
  getStaticProps ctx w = (Normal r, w') ->
  (isPreview (props r) = true ->
   hasError (props r) = None /\ message (props r) = None)
  /\ (hasError (props r) = Some true -> isPreview (props r) = false).
Proof.
  destruct ctx as [p pd]. intros H.
  destruct (truthy p) eqn:Hp.
  - assert (exists sid, destructure_snapshotId pd = mret sid) as [sid Hsid].
    { destruct pd; try (by eexists);
        unfold getStaticProps, mbind, Js_bind in H; simpl in H;
        rewrite Hp in H; simpl in H; discriminate. }
    rewrite (getStaticProps_destructured p pd sid w Hp Hsid) in H.
    destruct (reads_total sid w) as (rr & w'' & Hr).
    rewrite (getStaticProps_reads _ _ _ _ Hr) in H. inversion H; subst.
    destruct rr; simpl; split; try done.
  - unfold getStaticProps in H. simpl in H. rewrite Hp in H.
    inversion H; subst. simpl. split; done.
Qed.

Lemma getStaticProps_preview_xor_error_witness :
  (isPreview (error_props AccessDenied) = true ->
   hasError (error_props AccessDenied) = None
   /\ message (error_props AccessDenied) = None)
  /\ (hasError (error_props AccessDenied) = Some true ->
      isPreview (error_props AccessDenied) = false).
Proof.
  apply (getStaticProps_preview_xor_error
           (mkContext (Some true) (PreviewObject (Some "abc123")))
           empty_world
           (log_call (GetObject (mkRequest (Some "preview-snapshots") "abc123.json"))
                     empty_world)
           (mkResult (error_props AccessDenied))).
  reflexivity.
Defined.

(* ===================================================================== *)
(** ** The Snapshot Service and the round trip                           *)
(* ===================================================================== *)

(** A [save] that returns has written the serialized edits under the key of
    the identifier it returns. *)
Lemma save_returns (edits : list FieldEdit.t) (w w1 : World) (id : string) :
  save edits w = (Normal id, w1) ->
  exists b,
    env_AWS_S3_BUCKET w1 = Some b
    /\ s3_fault w1 = None
    /\ s3_objects w1 !! (b, id +:+ ".json")
       = Some (mkObject (Some (stringify (FieldEdits_toJs edits)))).
Proof.
  unfold save, generate_id, process_env_AWS_S3_BUCKET, try_catch, s3_putObject,
    mbind, Js_bind, mret, Js_ret, throw.
  simpl. destruct (s3_fault w) eqn:Hf; [discriminate|].
  destruct (env_AWS_S3_BUCKET w) as [b|] eqn:Hb; [|discriminate].
  intros H. inversion H; subst. exists b. simpl.
  split; [done|]. split; [done|]. apply lookup_insert_eq.
Qed.

(** Every [save] sends exactly one write to the store, whether it returns
    or fails. *)
Lemma save_writes_once (edits : list FieldEdit.t) (w : World) :
  store_writes (snd (save edits w)) = S (store_writes w).
Proof.
  unfold save, generate_id, process_env_AWS_S3_BUCKET, try_catch, s3_putObject,
    mbind, Js_bind, mret, Js_ret, throw, store_writes.
  simpl. destruct (s3_fault w); simpl.
  - rewrite filter_app, length_app. simpl. lia.
  - destruct (env_AWS_S3_BUCKET w); simpl; rewrite filter_app, length_app; simpl; lia.
Qed.

(** C1.  Round trip.  When [save edits] returns the identifier [id], a
    later [getStaticProps] in preview mode with that identifier, on a store
    that holds the same objects and is reachable, returns [isPreview] true,
    the identifier, and contents that read back as the sequence [edits]:
    the same records in the same order, hence the same set of id-to-text
    pairs.  This holds for the empty sequence as for any other. *)
Theorem save_then_resolve_round_trip
        (edits : list FieldEdit.t) (w w1 w2 : World) (id : string) :
  save edits w = (Normal id, w1) ->
  s3_objects w2 = s3_objects w1 ->
  env_AWS_S3_BUCKET w2 = env_AWS_S3_BUCKET w1 ->
  s3_fault w2 = None ->
  exists r w3 edits',
    getStaticProps (mkContext (Some true) (PreviewObject (Some id))) w2 = (Normal r, w3)
    /\ isPreview (props r) = true
    /\ snapshotId (props r) = Some id
    /\ Home_edits (props r) ≫= FieldEdits_ofJs = Some edits'
    /\ edits' = edits
    /\ FieldEdit.pairs edits' = FieldEdit.pairs edits.
Proof.
  intros Hsave Hobj Henv Hfault.
  destruct (save_returns _ _ _ _ Hsave) as (b & Hb & _ & Hlook).
  assert (reads (Some id) w2 (ReadOk (FieldEdits_toJs edits))
            (log_call (GetObject (mkRequest (env_AWS_S3_BUCKET w2) (json_key (Some id)))) w2))
    as Hr.
  { eapply reads_document.
    - unfold s3_getObject. rewrite Hfault, Henv, Hb. simpl.
      rewrite Hobj, Hlook. reflexivity.
    - reflexivity.
    - apply parse_stringify_edits. }
  eexists _, _, edits. split; [exact (getStaticProps_reads _ _ _ _ Hr)|].
  simpl. repeat split. apply FieldEdits_ofJs_toJs.
Qed.

Lemma save_then_resolve_round_trip_witness :
  save [title_edit] empty_world
  = (Normal "abc123",
     store_object "preview-snapshots" "abc123.json"
       (mkObject (Some (stringify (FieldEdits_toJs [title_edit]))))
       (log_call (PutObject (mkRequest (Some "preview-snapshots") "abc123.json")
                            (stringify (FieldEdits_toJs [title_edit])))
                 (draw_token empty_world)))
  /\ exists r w3 edits',
      getStaticProps (mkContext (Some true) (PreviewObject (Some "abc123")))
        (snd (save [title_edit] empty_world)) = (Normal r, w3)
      /\ isPreview (props r) = true
      /\ snapshotId (props r) = Some "abc123"
      /\ Home_edits (props r) ≫= FieldEdits_ofJs = Some edits'
      /\ edits' = [title_edit]
      /\ FieldEdit.pairs edits' = FieldEdit.pairs [title_edit].
Proof.
  split; [reflexivity|].
  apply (save_then_resolve_round_trip [title_edit] empty_world
           (snd (save [title_edit] empty_world))
           (snd (save [title_edit] empty_world)) "abc123");
    reflexivity.
Defined.

(** The round trip of the empty sequence, run on the sample world. *)
Example save_then_resolve_empty :
  fst (getStaticProps (mkContext (Some true) (PreviewObject (Some "abc123")))
         (snd (save [] empty_world)))
  = Normal (mkResult (mkProps true (Some "abc123") (Some (JArray [])) None None)).
Proof. reflexivity. Qed.

(* ===================================================================== *)
(** ** The edit collector                                                *)
(* ===================================================================== *)

(** Induction over an element with the hypothesis for all its children. *)
Lemma Element_ind_children (P : DOM.Element -> Prop) :
  (forall i c x cs, Forall P cs -> P (DOM.mkElement i c x cs)) ->
  forall e, P e.
Proof.
  intros H. fix IH 1. intros [i c x cs]. apply H.
  induction cs as [|e cs IHcs]; constructor; [apply IH | exact IHcs].
Qed.

Lemma selector_matches_true (p e : DOM.Element) :
  DOM.selector_matches p e = true
  <-> is_Some (DOM.attr_id p) /\ DOM.attr_contenteditable e = Some "true".
Proof.
  unfold DOM.selector_matches.
  rewrite andb_true_iff, !bool_decide_eq_true. reflexivity.
Qed.

(** The nodes that [select] finds at and below [e]. *)
Lemma select_spec (e parent p x : DOM.Element) :
  In (DOM.mkNode p x) (DOM.select parent e)
  <-> (p = parent /\ x = e /\ DOM.selector_matches parent e = true)
      \/ (child_in e p x /\ DOM.selector_matches p x = true).
Proof.
  revert parent. induction e as [i c t cs IH] using Element_ind_children.
  intros parent. set (e := DOM.mkElement i c t cs).
  change (DOM.select parent e)
    with ((if DOM.selector_matches parent e then [DOM.mkNode parent e] else [])
          ++ flat_map (DOM.select e) cs).
  rewrite in_app_iff, in_flat_map. split.
  - intros [Hhere|(k & Hk & Hin)].
    + left. destruct (DOM.selector_matches parent e) eqn:Hm; [|done].
      destruct Hhere as [Heq|[]]. by inversion Heq.
    + right. rewrite Stdlib.Lists.List.Forall_forall in IH.
      apply (IH k Hk) in Hin as [(-> & -> & Hm)|[Hc Hm]].
      * split; [|done]. by apply child_here.
      * split; [|done]. by eapply child_below.
  - intros [(-> & -> & Hm)|[Hc Hm]].
    + left. rewrite Hm. by left.
    + right. rewrite Stdlib.Lists.List.Forall_forall in IH. inversion Hc; subst.
      * exists x. split; [done|]. apply IH; [done|]. by left.
      * exists c0. split; [done|]. apply IH; [done|]. by right.
Qed.

Lemma querySelectorAll_spec (root p x : DOM.Element) :
  In (DOM.mkNode p x) (DOM.querySelectorAll root)
  <-> child_in root p x
      /\ is_Some (DOM.attr_id p) /\ DOM.attr_contenteditable x = Some "true".
Proof.
  unfold DOM.querySelectorAll. rewrite in_flat_map, <- selector_matches_true. split.
  - intros (k & Hk & Hin). apply select_spec in Hin as [(-> & -> & Hm)|[Hc Hm]].
    + split; [|done]. by apply child_here.
    + split; [|done]. by eapply child_below.
  - intros [Hc Hm]. inversion Hc; subst.
    + exists x. split; [done|]. apply select_spec. by left.
    + exists c. split; [done|]. apply select_spec. by right.
Qed.

(** C7 as stated fails: an editable element whose parent has no id gives no
    record, though it is marked editable and has an identified ancestor. *)
Lemma collector_skips_unidentified_parent :
  spec_collect nested_document = [(Some "outer", "x")]
  /\ persistContents nested_document = []
  /\ length (persistContents nested_document) <> length (spec_collect nested_document).
Proof. repeat split. discriminate. Qed.

Lemma path_lt_irrefl (a : list nat) : ~ path_lt a a.
Proof. induction a as [|i a IH]; simpl; [tauto|]. intros [H|[_ H]]; [lia | tauto]. Qed.

Lemma sorted_paths_NoDup (l : list (list nat)) :
  StronglySorted path_lt l -> NoDup l.
Proof.
  induction 1 as [|x l _ IH Hall]; constructor; [|exact IH].
  intros Hin. rewrite Forall_forall in Hall.
  exact (path_lt_irrefl x (Hall x Hin)).
Qed.

Lemma in_indexed_paths (f : DOM.Element -> list (list nat))
      (cs : list DOM.Element) (i : nat) (path : list nat) :
  In path (indexed_paths f cs i)
  <-> exists k path' c,
        path = k :: path' /\ i <= k /\ nth_error cs (k - i) = Some c /\ In path' (f c).
Proof.
  revert i. induction cs as [|c cs IH]; intros i; simpl.
  - split; [done|]. intros (k & path' & c & _ & _ & Hn & _).
    by destruct (k - i).
  - rewrite in_app_iff, in_map_iff, IH. split.
    + intros [(path' & <- & Hin)|(k & path' & c' & -> & Hle & Hn & Hin)].
      * exists i, path', c. rewrite Nat.sub_diag. by repeat split.
      * exists k, path', c'. repeat split; [lia | | done].
        replace (k - i) with (S (k - S i)) by lia. exact Hn.
    + intros (k & path' & c' & -> & Hle & Hn & Hin).
      destruct (decide (k = i)) as [->|Hne].
      * left. rewrite Nat.sub_diag in Hn. simpl in Hn. inversion Hn; subst.
        by exists path'.
      * right. exists k, path', c'. repeat split; [lia | | done].
        replace (k - i) with (S (k - S i)) in Hn by lia. exact Hn.
Qed.

Lemma map_cons_sorted (i : nat) (l : list (list nat)) :
  StronglySorted path_lt l -> StronglySorted path_lt (map (cons i) l).
Proof.
  induction 1 as [|x l _ IH Hall]; simpl; constructor; [exact IH|].
  rewrite Forall_forall in Hall. apply Forall_forall. intros y Hy.
  apply list_elem_of_In, in_map_iff in Hy as (z & <- & Hz). simpl. right.
  split; [done|]. apply Hall. by apply list_elem_of_In.
Qed.

Lemma indexed_paths_sorted (f : DOM.Element -> list (list nat))
      (cs : list DOM.Element) (i : nat) :
  (forall c, In c cs -> StronglySorted path_lt (f c)) ->
  StronglySorted path_lt (indexed_paths f cs i).
Proof.
  revert i. induction cs as [|c cs IH]; intros i Hf; simpl; [constructor|].
  apply StronglySorted_app. split; [|split].
  - intros x1 x2 H1 H2.
    apply list_elem_of_In, in_map_iff in H1 as (a & <- & _).
    apply list_elem_of_In, in_indexed_paths in H2 as (k & b & _ & -> & Hle & _).
    simpl. left. lia.
  - apply map_cons_sorted, Hf. by left.
  - apply IH. intros c' Hc'. apply Hf. by right.
Qed.

Lemma paths_in_sorted (e parent : DOM.Element) :
  StronglySorted path_lt (paths_in parent e).
Proof.
  revert parent. induction e as [i c t cs IH] using Element_ind_children.
  intros parent. simpl.
  assert (StronglySorted path_lt (indexed_paths (paths_in (DOM.mkElement i c t cs)) cs 0))
    as Hs.
  { apply indexed_paths_sorted. intros k Hk.
    rewrite Stdlib.Lists.List.Forall_forall in IH. by apply IH. }
  destruct (DOM.selector_matches parent (DOM.mkElement i c t cs)); [|exact Hs].
  simpl. constructor; [exact Hs|]. apply Forall_forall. intros x Hx.
  apply list_elem_of_In, in_indexed_paths in Hx as (k & b & _ & -> & _). exact I.
Qed.

Lemma node_at_cons (e c : DOM.Element) (i : nat) (path : list nat) :
  nth_error (DOM.children e) i = Some c ->
  node_at e (i :: path) = node_in e c path.
Proof.
  intros Hn. unfold node_at. destruct path as [|k path].
  - simpl. by rewrite Hn.
  - change (removelast (i :: k :: path)) with (i :: removelast (k :: path)).
    simpl element_at. rewrite Hn. reflexivity.
Qed.

Lemma node_at_none (e : DOM.Element) (i : nat) (path : list nat) :
  nth_error (DOM.children e) i = None -> node_at e (i :: path) = None.
Proof.
  intros Hn. unfold node_at. simpl element_at at 2. rewrite Hn.
  by destruct (element_at e (removelast (i :: path))).
Qed.

(** Child by child, the paths and the nodes of [flat_map (select e)] agree. *)
Lemma indexed_select (e : DOM.Element) (cs : list DOM.Element) (i : nat) :
  (forall j c, nth_error cs j = Some c -> nth_error (DOM.children e) (i + j) = Some c) ->
  (forall c, In c cs ->
     Forall2 (fun path n => node_in e c path = Some n) (paths_in e c) (DOM.select e c)) ->
  Forall2 (fun path n => node_at e path = Some n)
          (indexed_paths (paths_in e) cs i) (flat_map (DOM.select e) cs).
Proof.
  revert i. induction cs as [|c cs IH]; intros i Hnth Hsel; simpl; [constructor|].
  apply Forall2_app.
  - assert (nth_error (DOM.children e) i = Some c) as Hc.
    { rewrite <- (Nat.add_0_r i). by apply Hnth. }
    pose proof (Hsel c (or_introl eq_refl)) as H.
    induction H as [|path n paths ns Hpn _ IHF]; simpl; constructor; [|exact IHF].
    by rewrite (node_at_cons e c i path Hc).
  - apply IH.
    + intros j c' Hj. replace (S i + j) with (i + S j) by lia. by apply Hnth.
    + intros c' Hc'. apply Hsel. by right.
Qed.

Lemma select_paths (e parent : DOM.Element) :
  Forall2 (fun path n => node_in parent e path = Some n)
          (paths_in parent e) (DOM.select parent e).
Proof.
  revert parent. induction e as [i c t cs IH] using Element_ind_children.
  intros parent. set (e := DOM.mkElement i c t cs).
  change (Forall2 (fun path n => node_in parent e path = Some n)
            ((if DOM.selector_matches parent e then [[]] else [])
             ++ indexed_paths (paths_in e) cs 0)
            ((if DOM.selector_matches parent e then [DOM.mkNode parent e] else [])
             ++ flat_map (DOM.select e) cs)).
  apply Forall2_app.
  - destruct (DOM.selector_matches parent e); repeat constructor.
  - assert (Forall2 (fun path n => node_at e path = Some n)
              (indexed_paths (paths_in e) cs 0) (flat_map (DOM.select e) cs)) as H.
    { apply indexed_select; [done|]. intros k Hk.
      rewrite Stdlib.Lists.List.Forall_forall in IH. by apply IH. }
    assert (forall path, In path (indexed_paths (paths_in e) cs 0) -> path <> []) as Hne.
    { intros path Hp. by apply in_indexed_paths in Hp as (k & b & _ & -> & _). }
    induction H as [|path n paths ns Hpn _ IHF]; constructor.
    + destruct path; [by destruct (Hne [] (or_introl eq_refl))|exact Hpn].
    + apply IHF. intros q Hq. apply Hne. by right.
Qed.

Lemma in_paths_in (e parent : DOM.Element) (path : list nat) :
  In path (paths_in parent e)
  <-> exists n, node_in parent e path = Some n
                /\ DOM.selector_matches (DOM.parentNode n) (DOM.element n) = true.
Proof.
  revert parent path. induction e as [i c t cs IH] using Element_ind_children.
  intros parent path. set (e := DOM.mkElement i c t cs).
  change (paths_in parent e)
    with ((if DOM.selector_matches parent e then [[]] else [])
          ++ indexed_paths (paths_in e) cs 0).
  rewrite in_app_iff, in_indexed_paths.
  rewrite Stdlib.Lists.List.Forall_forall in IH.
  destruct path as [|k path].
  - split.
    + intros [H|(k & b & _ & [=] & _)].
      destruct (DOM.selector_matches parent e) eqn:Hm; [|done].
      exists (DOM.mkNode parent e). by split.
    + intros (n & [= <-] & Hm). left. simpl in Hm. rewrite Hm. by left.
  - simpl node_in. split.
    + intros [H|(k' & b & c' & [= <- <-] & _ & Hn & Hin)].
      { destruct (DOM.selector_matches parent e); simpl in H; [|done].
        destruct H as [H|H]; [discriminate|done]. }
      rewrite Nat.sub_0_r in Hn.
      rewrite (node_at_cons e c' k path Hn).
      apply IH; [|done]. by eapply nth_error_In.
    + intros (n & Hn & Hm). right.
      destruct (nth_error (DOM.children e) k) as [c'|] eqn:Hc.
      * exists k, path, c'. rewrite Nat.sub_0_r.
        repeat split; [lia | done |].
        apply IH; [by eapply nth_error_In|].
        exists n. split; [|done]. by rewrite <- (node_at_cons e c' k path Hc).
      * by rewrite (node_at_none e k path Hc) in Hn.
Qed.

(** The nodes of the query are the nodes at the editable paths, in order. *)
Lemma querySelectorAll_paths (doc : DOM.Element) :
  Forall2 (fun path n => node_at doc path = Some n)
          (editable_paths doc) (DOM.querySelectorAll doc).
Proof.
  apply indexed_select; [done|]. intros c _. apply select_paths.
Qed.

Lemma in_editable_paths (doc : DOM.Element) (path : list nat) :
  In path (editable_paths doc) <-> matched doc path.
Proof.
  unfold editable_paths, matched. rewrite in_indexed_paths. split.
  - intros (k & b & c & -> & _ & Hn & Hin). rewrite Nat.sub_0_r in Hn.
    apply in_paths_in in Hin as ([p x] & Hnode & Hm).
    rewrite <- (node_at_cons doc c k b Hn) in Hnode. unfold node_at in Hnode.
    destruct (element_at doc (removelast (k :: b))) as [p'|]; [|done].
    destruct (element_at doc (k :: b)) as [x'|]; [|done].
    inversion Hnode; subst. apply selector_matches_true in Hm as [Hid He].
    exists p, x. by repeat split.
  - intros (p & x & Hne & Hp & Hx & Hid & He).
    destruct path as [|k b]; [done|].
    destruct (nth_error (DOM.children doc) k) as [c|] eqn:Hc.
    + exists k, b, c. rewrite Nat.sub_0_r. repeat split; [lia | done |].
      apply in_paths_in. exists (DOM.mkNode p x). split.
      * rewrite <- (node_at_cons doc c k b Hc). unfold node_at. by rewrite Hp, Hx.
      * apply selector_matches_true. by split.
    + simpl in Hx. by rewrite Hc in Hx.
Qed.

(** Records with distinct places have distinct ids once the document gives
    distinct places distinct regions. *)
Lemma distinct_regions_distinct_ids (doc : DOM.Element)
      (paths : list (list nat)) (records : list FieldEdit.t) :
  Forall2 (fun path r =>
             exists p x,
               element_at doc (removelast path) = Some p
               /\ element_at doc path = Some x
               /\ FieldEdit.id r = DOM.id p
               /\ FieldEdit.innerText r = DOM.innerText x) paths records ->
  NoDup paths ->
  (forall path, In path paths -> matched doc path) ->
  (forall path1 path2 p1 p2,
     matched doc path1 -> matched doc path2 ->
     element_at doc (removelast path1) = Some p1 ->
     element_at doc (removelast path2) = Some p2 ->
     DOM.id p1 = DOM.id p2 -> path1 = path2) ->
  NoDup (map FieldEdit.id records).
Proof.
  intros HF Hnd Hm Hinj.
  induction HF as [|path r paths records (p & x & Hp & Hx & Hid & Ht) HF IH]; simpl;
    [constructor|].
  apply NoDup_cons in Hnd as [Hnotin Hnd]. constructor.
  - intros Hin. apply list_elem_of_In, in_map_iff in Hin as (r' & Heq & Hr').
    assert (exists path', In path' paths
              /\ exists p', element_at doc (removelast path') = Some p'
                            /\ FieldEdit.id r' = DOM.id p') as (path' & Hin' & p' & Hp' & Hid').
    { clear -HF Hr'.
      induction HF as [|q s qs ss (p' & x' & H1 & _ & H2 & _) _ IH']; [done|].
      destruct Hr' as [->|Hr'].
      - exists q. split; [by left|]. by exists p'.
      - destruct (IH' Hr') as (path' & Hin' & H). exists path'. split; [by right|done]. }
    assert (path = path') as ->.
    { apply (Hinj path path' p p'); [apply Hm; by left | apply Hm; by right | done | done |].
      congruence. }
    apply Hnotin. by apply list_elem_of_In.
  - apply IH; [done|]. intros q Hq. apply Hm. by right.
Qed.

(** C7, amended.  The collector gives exactly one [{ id, innerText }]
    record per element that has [contenteditable] equal to [true] and is
    the child of an element with an [id] attribute, in document order: the
    places of these elements, each once and in increasing order, stand
    against the records one for one, and a record's [id] is the [id] of the
    parent of its place and its [innerText] the text of the element there.
    When no two of these elements have parents with the same id (so no
    identified element has two editable children and no two such parents
    share an id), no two records have the same id: every region id among
    the records is the id of exactly one record. *)
Theorem persistContents_collects (doc : DOM.Element) :
  StronglySorted path_lt (editable_paths doc)
  /\ NoDup (editable_paths doc)
  /\ (forall path, In path (editable_paths doc) <-> matched doc path)
  /\ Forall2 (fun path r =>
                exists p x,
                  element_at doc (removelast path) = Some p
                  /\ element_at doc path = Some x
                  /\ FieldEdit.id r = DOM.id p
                  /\ FieldEdit.innerText r = DOM.innerText x)
             (editable_paths doc) (persistContents doc)
  /\ ((forall path1 path2 p1 p2,
         matched doc path1 -> matched doc path2 ->
         element_at doc (removelast path1) = Some p1 ->
         element_at doc (removelast path2) = Some p2 ->
         DOM.id p1 = DOM.id p2 -> path1 = path2) ->
      NoDup (map FieldEdit.id (persistContents doc))
      /\ forall region,
           In region (map FieldEdit.id (persistContents doc)) ->
           count_occ string_dec (map FieldEdit.id (persistContents doc)) region = 1).
Proof.
  assert (StronglySorted path_lt (editable_paths doc)) as Hsorted.
  { apply indexed_paths_sorted. intros c _. apply paths_in_sorted. }
  assert (Forall2 (fun path r =>
                exists p x,
                  element_at doc (removelast path) = Some p
                  /\ element_at doc path = Some x
                  /\ FieldEdit.id r = DOM.id p
                  /\ FieldEdit.innerText r = DOM.innerText x)
             (editable_paths doc) (persistContents doc)) as HF.
  { clear Hsorted. unfold persistContents.
    induction (querySelectorAll_paths doc) as [|path n paths ns Hn _ IH]; simpl;
      [constructor|].
    constructor; [|exact IH].
    unfold node_at in Hn.
    destruct (element_at doc (removelast path)) as [p|]; [|done].
    destruct (element_at doc path) as [x|]; [|done].
    inversion Hn; subst. by exists p, x. }
  split; [exact Hsorted|]. split; [by apply sorted_paths_NoDup|].
  split; [apply in_editable_paths|]. split; [exact HF|].
  intros Hinj.
  assert (NoDup (map FieldEdit.id (persistContents doc))) as Hnd.
  { apply (distinct_regions_distinct_ids doc (editable_paths doc)); [done | | | done].
    - by apply sorted_paths_NoDup.
    - intros path. apply in_editable_paths. }
  split; [exact Hnd|]. intros region Hin.
  apply NoDup_ListNoDup in Hnd.
  pose proof (proj1 (NoDup_count_occ string_dec _) Hnd region) as Hle.
  apply (count_occ_In string_dec) in Hin. lia.
Qed.

Lemma persistContents_collects_witness :
  persistContents sample_document
  = [FieldEdit.mk "title" "Hello"; FieldEdit.mk "explanation-1" "World"]
  /\ editable_paths sample_document = [[0; 0]; [1; 0]]
  /\ NoDup (map FieldEdit.id (persistContents sample_document))
  /\ count_occ string_dec (map FieldEdit.id (persistContents sample_document)) "title" = 1.
Proof.
  split; [reflexivity|]. split; [reflexivity|].
  destruct (persistContents_collects sample_document) as (_ & _ & Hm & _ & Hwf).
  assert (forall path1 path2 p1 p2,
            matched sample_document path1 -> matched sample_document path2 ->
            element_at sample_document (removelast path1) = Some p1 ->
            element_at sample_document (removelast path2) = Some p2 ->
            DOM.id p1 = DOM.id p2 -> path1 = path2) as Hinj.
  { intros path1 path2 p1 p2 H1 H2 Hp1 Hp2 Hid.
    apply Hm in H1. apply Hm in H2.
    destruct H1 as [<-|[<-|[]]]; destruct H2 as [<-|[<-|[]]];
      try reflexivity; simpl in Hp1, Hp2; inversion Hp1; inversion Hp2; subst;
      discriminate Hid. }
  destruct (Hwf Hinj) as [H1 H2].
  split; [exact H1|]. apply H2. vm_compute. by left.
Defined.

(** Two editable children of one identified element give two records with
    the same id: the places differ, the region does not. *)
Example two_editable_children_share_an_id :
  editable_paths twin_document = [[0; 0]; [0; 1]]
  /\ map FieldEdit.id (persistContents twin_document) = ["a"; "a"].
Proof. split; reflexivity. Qed.

(* ===================================================================== *)
(** ** The save flow: the guard of [share] and the promise chain         *)
(* ===================================================================== *)

Lemma share_pending (b : Browser) :
  hasSaveRequest_current (home b) = true -> share b = b.
Proof. intros H. unfold share. by rewrite H. Qed.

(** The endpoint, given the request that [share] sends for a document,
    makes exactly one store write. *)
Lemma api_save_writes_once (doc : DOM.Element) (w : World) :
  store_writes
    (snd (api_save (mkFetch "/api/save" "POST"
                      (stringify (FieldEdits_toJs (persistContents doc)))
                      "application/json") w))
  = S (store_writes w).
Proof.
  unfold api_save. cbn [body]. rewrite parse_stringify_edits.
  cbn [mbind option_bind]. rewrite FieldEdits_ofJs_toJs.
  pose proof (save_writes_once (persistContents doc) w) as H.
  destruct (save (persistContents doc) w) as [[id|e] w']; exact H.
Qed.

(** C8.  While a save is pending (the [hasSaveRequest] ref is set), [share]
    changes nothing: no query of the document, no [fetch].  So two triggers
    in a row from an idle page (and any number of further ones while the
    first is pending) query the document once and send one request, and the
    endpoint serving what was sent makes exactly one store write. *)
Theorem share_while_pending_is_noop (b : Browser) :
  (hasSaveRequest_current (home b) = true ->
   share b = b
   /\ dom_queries (share b) = dom_queries b
   /\ fetches (share b) = fetches b)
  /\ (hasSaveRequest_current (home b) = false ->
      hasSaveRequest_current (home (share b)) = true
      /\ share (share b) = share b
      /\ (forall n, Nat.iter n share (share b) = share b)
      /\ dom_queries (share (share b)) = S (dom_queries b)
      /\ exists req,
          fetches (share (share b)) = fetches b ++ [req]
          /\ forall w, store_writes (snd (serve [req] w)) = S (store_writes w)).
Proof.
  split.
  - intros H. by rewrite (share_pending b H).
  - intros H.
    assert (hasSaveRequest_current (home (share b)) = true) as Hp.
    { unfold share. by rewrite H. }
    split; [exact Hp|]. rewrite (share_pending (share b) Hp). split; [done|].
    split.
    { induction n as [|n IH]; [done|]. simpl. rewrite IH. by apply share_pending. }
    unfold share. rewrite H. simpl. split; [done|].
    eexists. split; [reflexivity|]. intros w.
    pose proof (api_save_writes_once (document b) w) as Hw.
    destruct (api_save _ w) as [res w'] eqn:Ha. exact Hw.
Qed.

Lemma share_while_pending_is_noop_witness :
  share (share sample_page) = share sample_page
  /\ dom_queries (share (share sample_page)) = 1
  /\ exists req,
      fetches (share (share sample_page)) = [req]
      /\ forall w, store_writes (snd (serve [req] w)) = S (store_writes w).
Proof.
  destruct (proj2 (share_while_pending_is_noop sample_page) eq_refl)
    as (_ & H1 & _ & H2 & H3).
  split; [exact H1|]. split; [exact H2|]. exact H3.
Defined.

(** C10 fails on a response outside the 2xx range whose body cannot be
    read: [res.text()] rejects inside the async executor, the promise made
    by [new Promise] never settles, so neither [catch] nor [finally] runs;
    the guard stays set and every later trigger of [share] does nothing. *)
Theorem guard_stuck_when_error_body_unreadable (b : Browser) (st : Z) :
  hasSaveRequest_current (home b) = false ->
  ok (mkResponse st None) = false ->
  fst (share_chain (Fulfilled (mkResponse st None)) (home (share b))) = Forever
  /\ hasSaveRequest_current
       (home (fetch_settled (Fulfilled (mkResponse st None)) (share b))) = true
  /\ isSharingView
       (home (fetch_settled (Fulfilled (mkResponse st None)) (share b))) = true
  /\ currentError
       (home (fetch_settled (Fulfilled (mkResponse st None)) (share b)))
     = currentError (home b)
  /\ share (fetch_settled (Fulfilled (mkResponse st None)) (share b))
     = fetch_settled (Fulfilled (mkResponse st None)) (share b).
Proof.
  intros Hidle Hok.
  assert (share_chain (Fulfilled (mkResponse st None)) (home (share b))
          = (Forever, home (share b))) as Hc.
  { unfold share_chain, then_. rewrite Hok. reflexivity. }
  unfold fetch_settled. rewrite Hc. simpl.
  unfold share at 1 2 3. rewrite Hidle. simpl.
  repeat split. apply share_pending. simpl. unfold share. by rewrite Hidle.
Qed.

Lemma guard_stuck_when_error_body_unreadable_witness :
  hasSaveRequest_current
    (home (fetch_settled (Fulfilled (mkResponse 500 None)) (share sample_page))) = true
  /\ share (fetch_settled (Fulfilled (mkResponse 500 None)) (share sample_page))
     = fetch_settled (Fulfilled (mkResponse 500 None)) (share sample_page).
Proof.
  destruct (guard_stuck_when_error_body_unreadable sample_page 500 eq_refl eq_refl)
    as (_ & H1 & _ & _ & H2).
  split; [exact H1 | exact H2].
Defined.

(** X1.  Every other end of the [fetch] resets the guard: a rejected [fetch], a
    2xx response (whatever its body), and a response outside the 2xx range
    whose body can be read all lead through [finally], which sets
    [hasSaveRequest] and the sharing view flag to false. *)
Theorem share_chain_resets_guard (fetched : Settlement Response) (h : HomeState) :
  fetched <> Forever ->
  (forall res, fetched = Fulfilled res -> ok res = false -> payload res <> None) ->
  fst (share_chain fetched h) = Fulfilled tt
  /\ hasSaveRequest_current (snd (share_chain fetched h)) = false
  /\ isSharingView (snd (share_chain fetched h)) = false.
Proof.
  intros Hsettles Hbody. destruct fetched as [res|e|]; [| |done].
  - unfold share_chain, then_. destruct (ok res) eqn:Hok.
    + unfold Response_json. destruct (payload res) as [t|]; [|done].
      destruct (JSON.parse t) as [v|]; [|done].
      destruct v; done.
    + specialize (Hbody res eq_refl Hok). unfold Response_text.
      destruct (payload res) as [t|]; done.
  - done.
Qed.

Lemma share_chain_resets_guard_witness :
  fst (share_chain (Fulfilled (mkResponse 500 (Some "boom"))) (home (share sample_page)))
  = Fulfilled tt
  /\ hasSaveRequest_current
       (snd (share_chain (Fulfilled (mkResponse 500 (Some "boom")))
                         (home (share sample_page)))) = false
  /\ isSharingView
       (snd (share_chain (Fulfilled (mkResponse 500 (Some "boom")))
                         (home (share sample_page)))) = false.
Proof.
  apply (share_chain_resets_guard (Fulfilled (mkResponse 500 (Some "boom")))
           (home (share sample_page))).
  - discriminate.
  - intros res Hres _. inversion Hres. discriminate.
Defined.

(** X2.  A response outside the 2xx range whose body is the text [t] ends with
    [currentError] set to an error whose message is [t], word for word. *)
Theorem share_chain_surfaces_error_text (res : Response) (t : string) (h : HomeState) :
  ok res = false ->
  payload res = Some t ->
  currentError (snd (share_chain (Fulfilled res) h)) = Some (new_Error t)
  /\ error_message (new_Error t) = t
  /\ currentSnapshotId (snd (share_chain (Fulfilled res) h)) = currentSnapshotId h.
Proof.
  intros Hok Ht. unfold share_chain, then_, Response_text. by rewrite Hok, Ht.
Qed.

Lemma share_chain_surfaces_error_text_witness :
  currentError (snd (share_chain (Fulfilled (mkResponse 500 (Some "boom"))) initial_Home))
  = Some (new_Error "boom").
Proof.
  exact (proj1 (share_chain_surfaces_error_text
                  (mkResponse 500 (Some "boom")) "boom" initial_Home eq_refl eq_refl)).
Defined.

(** X3.  From an idle page, [share] sends one [POST] to [/api/save] with a
    JSON content type, and [JSON.parse] reads its body back as the records
    that the collector took from the document. *)
Theorem share_posts_collected_edits (b : Browser) :
  hasSaveRequest_current (home b) = false ->
  exists req,
    fetches (share b) = fetches b ++ [req]
    /\ url req = "/api/save"
    /\ method req = "POST"
    /\ content_type req = "application/json"
    /\ JSON.parse (body req) ≫= FieldEdits_ofJs = Some (persistContents (document b)).
Proof.
  intros Hidle. unfold share. rewrite Hidle. eexists. split; [reflexivity|].
  cbn [url method content_type body]. repeat split.
  rewrite parse_stringify_edits. cbn [mbind option_bind].
  apply FieldEdits_ofJs_toJs.
Qed.

Lemma share_posts_collected_edits_witness :
  exists req,
    fetches (share sample_page) = fetches sample_page ++ [req]
    /\ url req = "/api/save"
    /\ method req = "POST"
    /\ content_type req = "application/json"
    /\ JSON.parse (body req) ≫= FieldEdits_ofJs
       = Some (persistContents (document sample_page)).
Proof. exact (share_posts_collected_edits sample_page eq_refl). Defined.

(* ===================================================================== *)
(** ** The ends of the chain, one by one, and what the page then shows   *)
(* ===================================================================== *)

(** X4.  A 2xx response whose body is a JSON object with a [snapshotId]
    property sets [currentSnapshotId] to that property, leaves
    [currentError] and [isEdit] as they were and resets the guard; when the
    property is a non-empty string, the page shows the share link dialog
    for it. *)
Theorem share_chain_success
        (res : Response) (t : string) (ms : list (string * JsValue))
        (v : JsValue) (h : HomeState) :
  ok res = true ->
  payload res = Some t ->
  JSON.parse t = Some (JObject ms) ->
  get_prop "snapshotId" ms = Some v ->
  currentSnapshotId (snd (share_chain (Fulfilled res) h)) = Some v
  /\ currentError (snd (share_chain (Fulfilled res) h)) = currentError h
  /\ isEdit (snd (share_chain (Fulfilled res) h)) = isEdit h
  /\ hasSaveRequest_current (snd (share_chain (Fulfilled res) h)) = false
  /\ (forall id p, v = JString id -> id <> "" ->
        Home p (snd (share_chain (Fulfilled res) h)) !! 1
        = Some (ShareLinkDialog (JString id))).
Proof.
  intros Hok Ht Hp Hv.
  assert (snd (share_chain (Fulfilled res) h)
          = setSharing false (setSnapshotId (Some v) h)) as ->.
  { unfold share_chain, then_, Response_json. by rewrite Hok, Ht, Hp; simpl; rewrite Hv. }
  repeat split. intros id p -> Hid. simpl.
  by rewrite bool_decide_eq_false_2.
Qed.

Lemma share_chain_success_witness :
  currentSnapshotId
    (snd (share_chain
            (Fulfilled (mkResponse 200
               (Some (stringify (JObject [("snapshotId", JString "abc123")])))))
            initial_Home))
  = Some (JString "abc123").
Proof.
  exact (proj1 (share_chain_success
                  (mkResponse 200
                     (Some (stringify (JObject [("snapshotId", JString "abc123")]))))
                  (stringify (JObject [("snapshotId", JString "abc123")]))
                  [("snapshotId", JString "abc123")] (JString "abc123") initial_Home
                  eq_refl eq_refl eq_refl eq_refl)).
Defined.

(** X5.  A 2xx response whose body cannot be used ends in the error dialog,
    not in a share link: an unreadable body and a body [null] give a
    [TypeError], a body that is no JSON document gives a [SyntaxError];
    [currentSnapshotId] stays as it was and the guard is reset. *)
Theorem share_chain_unusable_success_body (res : Response) (h : HomeState) :
  ok res = true ->
  (payload res = None
   \/ exists t, payload res = Some t
                /\ (JSON.parse t = None \/ JSON.parse t = Some JNull)) ->
  currentError (snd (share_chain (Fulfilled res) h))
    = Some (match payload res with
            | Some t => match JSON.parse t with
                        | None => SyntaxError
                        | Some _ => TypeError
                        end
            | None => TypeError
            end)
  /\ currentSnapshotId (snd (share_chain (Fulfilled res) h)) = currentSnapshotId h
  /\ hasSaveRequest_current (snd (share_chain (Fulfilled res) h)) = false
  /\ (forall p, exists shown,
        Home p (snd (share_chain (Fulfilled res) h)) !! 0 = Some (ErrorDialog shown)).
Proof.
  intros Hok Hbody. unfold share_chain, then_, Response_json. rewrite Hok.
  destruct Hbody as [Hn|(t & Ht & [Hp|Hp])].
  - rewrite Hn. simpl. repeat split. intros p. by eexists.
  - rewrite Ht, Hp. simpl. repeat split. intros p. by eexists.
  - rewrite Ht, Hp. simpl. repeat split. intros p. by eexists.
Qed.

Lemma share_chain_unusable_success_body_witness :
  currentError (snd (share_chain (Fulfilled (mkResponse 200 (Some "null"))) initial_Home))
  = Some TypeError.
Proof.
  refine (proj1 (share_chain_unusable_success_body
                   (mkResponse 200 (Some "null")) initial_Home eq_refl _)).
  right. exists "null". split; [reflexivity|]. right. reflexivity.
Defined.

(** X6.  A 2xx response whose JSON body is not [null] and has no
    [snapshotId] property (an object without it, an array, a number, a
    string, a boolean) sets [currentSnapshotId] to [undefined], whatever it
    was before, and sets no error: with no earlier error on the page, the
    user is shown neither a share link nor an error. *)
Theorem share_chain_success_without_id
        (res : Response) (t : string) (v : JsValue) (h : HomeState) :
  ok res = true ->
  payload res = Some t ->
  JSON.parse t = Some v ->
  v <> JNull ->
  (forall ms, v = JObject ms -> get_prop "snapshotId" ms = None) ->
  currentSnapshotId (snd (share_chain (Fulfilled res) h)) = None
  /\ currentError (snd (share_chain (Fulfilled res) h)) = currentError h
  /\ hasSaveRequest_current (snd (share_chain (Fulfilled res) h)) = false
  /\ (currentError h = None ->
      forall p, take 2 (Home p (snd (share_chain (Fulfilled res) h)))
                = [Nothing; Nothing]).
Proof.
  intros Hok Ht Hp Hnull Hms.
  assert (snd (share_chain (Fulfilled res) h)
          = setSharing false (setSnapshotId None h)) as ->.
  { unfold share_chain, then_, Response_json. rewrite Hok, Ht, Hp.
    destruct v; try done. simpl. by rewrite (Hms _ eq_refl). }
  repeat split. intros He p. simpl. by rewrite He.
Qed.

Lemma share_chain_success_without_id_witness :
  currentSnapshotId
    (snd (share_chain (Fulfilled (mkResponse 200 (Some "{}")))
            (setSnapshotId (Some (JString "abc123")) initial_Home)))
  = None.
Proof.
  refine (proj1 (share_chain_success_without_id
                   (mkResponse 200 (Some "{}")) "{}" (JObject [])
                   (setSnapshotId (Some (JString "abc123")) initial_Home)
                   eq_refl eq_refl eq_refl _ _)).
  - discriminate.
  - intros ms Hms. inversion Hms. reflexivity.
Defined.

(** X7.  A [fetch] that rejects (the network is down) puts the very error it
    rejected with in [currentError]; [currentSnapshotId] stays as it was,
    the guard is reset, and the page shows the error dialog with that
    error's message. *)
Theorem share_chain_network_failure (e : JsError) (h : HomeState) (p : Props) :
  currentError (snd (share_chain (Rejected e) h)) = Some e
  /\ currentSnapshotId (snd (share_chain (Rejected e) h)) = currentSnapshotId h
  /\ hasSaveRequest_current (snd (share_chain (Rejected e) h)) = false
  /\ Home p (snd (share_chain (Rejected e) h)) !! 0
     = Some (ErrorDialog (error_message e)).
Proof. repeat split. Qed.

(* ===================================================================== *)
(** ** Sessions: at most one save is in flight                           *)
(* ===================================================================== *)

Lemma share_chain_keeps_flags_equal (fetched : Settlement Response) (h : HomeState) :
  isSharingView h = hasSaveRequest_current h ->
  isSharingView (snd (share_chain fetched h))
  = hasSaveRequest_current (snd (share_chain fetched h)).
Proof.
  intros Heq. destruct fetched as [res|e|]; [| done | done].
  unfold share_chain, then_. destruct (ok res).
  - unfold Response_json. destruct (payload res) as [t|]; [|done].
    destruct (JSON.parse t) as [v|]; [|done]. by destruct v.
  - unfold Response_text. by destruct (payload res).
Qed.

Lemma step_keeps_single_flight (s : Session) (ev : Event) :
  single_flight s -> single_flight (step s ev).
Proof.
  unfold single_flight. intros (Hle & Hguard & Hflags). destruct ev as [|r]; simpl.
  - unfold share.
    destruct (hasSaveRequest_current (home (page s))) eqn:Hg; simpl.
    + rewrite Nat.sub_diag, Nat.add_0_r, Hg. done.
    + assert (in_flight s = 0) as ->.
      { destruct (in_flight s) as [|[|n]]; [done| |lia].
        specialize (Hguard eq_refl). congruence. }
      rewrite length_app. simpl. repeat split. lia.
  - destruct (in_flight s) as [|n] eqn:Hn; simpl.
    + rewrite Hn. done.
    + repeat split; [lia | lia |].
      by apply share_chain_keeps_flags_equal.
Qed.

(** X8.  From an idle page with nothing in flight, after any sequence of
    triggers of [share] and ends of [fetch] (responses of any status and
    body, rejections), at most one [fetch] of the page has not ended; while
    one has not, the guard is set; and the sharing view flag always equals
    the guard. *)
Theorem session_single_flight (b : Browser) (evs : list Event) :
  hasSaveRequest_current (home b) = false ->
  isSharingView (home b) = false ->
  in_flight (run_events (mkSession b 0) evs) <= 1
  /\ (in_flight (run_events (mkSession b 0) evs) = 1 ->
      hasSaveRequest_current (home (page (run_events (mkSession b 0) evs))) = true)
  /\ isSharingView (home (page (run_events (mkSession b 0) evs)))
     = hasSaveRequest_current (home (page (run_events (mkSession b 0) evs))).
Proof.
  intros Hg Hv.
  assert (single_flight (mkSession b 0)) as Hinit.
  { repeat split; simpl; [lia | lia | congruence]. }
  revert Hinit. generalize (mkSession b 0). unfold run_events.
  induction evs as [|ev evs IH]; intros s Hs; [exact Hs|].
  simpl. apply IH. by apply step_keeps_single_flight.
Qed.

Lemma session_single_flight_witness :
  in_flight (run_events (mkSession sample_page 0)
               [Click_share; Click_share; Fetch_ends (inl (mkResponse 500 None));
                Click_share]) <= 1.
Proof.
  exact (proj1 (session_single_flight sample_page
                  [Click_share; Click_share; Fetch_ends (inl (mkResponse 500 None));
                   Click_share] eq_refl eq_refl)).
Defined.

Lemma chain_guard_reset (fetched : Settlement Response) (h : HomeState) :
  fetched <> Forever ->
  (forall res, fetched = Fulfilled res -> ok res = false -> payload res <> None) ->
  hasSaveRequest_current (snd (share_chain fetched h)) = false.
Proof.
  intros Hsettles Hbody. destruct fetched as [res|e|]; [| done | done].
  unfold share_chain, then_. destruct (ok res) eqn:Hok.
  - unfold Response_json. destruct (payload res) as [t|]; [|done].
    destruct (JSON.parse t) as [v|]; [|done]. by destruct v.
  - specialize (Hbody res eq_refl Hok). unfold Response_text.
    by destruct (payload res).
Qed.

(** X9.  No finished attempt blocks the next one, the unreadable error body
    apart: after a [fetch] that was rejected, answered 2xx, or answered
    outside 2xx with a readable body, the next trigger of [share] queries
    the document again and sends a second request. *)
Theorem share_again_after_settled (b : Browser) (fetched : Settlement Response) :
  hasSaveRequest_current (home b) = false ->
  fetched <> Forever ->
  (forall res, fetched = Fulfilled res -> ok res = false -> payload res <> None) ->
  exists req,
    fetches (share (fetch_settled fetched (share b))) = fetches b ++ [req; req]
    /\ body req = stringify (FieldEdits_toJs (persistContents (document b)))
    /\ dom_queries (share (fetch_settled fetched (share b))) = S (S (dom_queries b))
    /\ hasSaveRequest_current (home (share (fetch_settled fetched (share b)))) = true.
Proof.
  intros Hidle Hs Hbody.
  pose proof (chain_guard_reset fetched (home (share b)) Hs Hbody) as Hg.
  assert (share (fetch_settled fetched (share b))
          = mkBrowser (document b)
              (setSharing true (snd (share_chain fetched (home (share b)))))
              (S (S (dom_queries b)))
              ((fetches b ++ [mkFetch "/api/save" "POST"
                               (stringify (FieldEdits_toJs (persistContents (document b))))
                               "application/json"])
               ++ [mkFetch "/api/save" "POST"
                     (stringify (FieldEdits_toJs (persistContents (document b))))
                     "application/json"])) as ->.
  { unfold share at 1. unfold fetch_settled. cbn [home]. rewrite Hg.
    unfold share. rewrite Hidle. reflexivity. }
  eexists. cbn [fetches body dom_queries home]. rewrite <- app_assoc.
  repeat split.
Qed.

Lemma share_again_after_settled_witness :
  exists req,
    fetches (share (fetch_settled (Rejected NetworkingError) (share sample_page)))
    = fetches sample_page ++ [req; req]
    /\ body req = stringify (FieldEdits_toJs (persistContents (document sample_page)))
    /\ dom_queries (share (fetch_settled (Rejected NetworkingError) (share sample_page)))
       = S (S (dom_queries sample_page))
    /\ hasSaveRequest_current
         (home (share (fetch_settled (Rejected NetworkingError) (share sample_page))))
       = true.
Proof.
  apply (share_again_after_settled sample_page (Rejected NetworkingError)).
  - reflexivity.
  - discriminate.
  - intros res Hres. discriminate.
Defined.

(* ===================================================================== *)
(** ** More on [getStaticProps], and the page it leads to                *)
(* ===================================================================== *)

(** [getStaticProps] leaves the world as it is, or adds one [getObject]
    to the calls. *)
Lemma getStaticProps_world (ctx : GetStaticPropsContext) (w : World) :
  snd (getStaticProps ctx w) = w
  \/ exists req, snd (getStaticProps ctx w) = log_call (GetObject req) w.
Proof.
  destruct ctx as [p pd]. destruct (truthy p) eqn:Hp.
  - assert ((exists sid, destructure_snapshotId pd = mret sid)
            \/ destructure_snapshotId pd = throw TypeError) as [[sid Hd]|Hd].
    { destruct pd; try (left; by eexists); by right. }
    + rewrite (getStaticProps_destructured p pd sid w Hp Hd).
      destruct (reads_total sid w) as (r & w' & Hr).
      rewrite (getStaticProps_reads _ _ _ _ Hr), (reads_logs _ _ _ _ Hr).
      right. by eexists.
    + left. unfold getStaticProps, mbind, Js_bind. simpl. by rewrite Hp, Hd.
  - left. unfold getStaticProps. simpl. by rewrite Hp.
Qed.

(** X10.  [getStaticProps] never changes the store: for every context (also
    one on which it raises) and every world, the objects, the environment
    and the identifier source are as before, no write was sent, and at most
    one call was made, a [getObject]. *)
Theorem getStaticProps_never_writes (ctx : GetStaticPropsContext) (w : World) :
  s3_objects (snd (getStaticProps ctx w)) = s3_objects w
  /\ env_AWS_S3_BUCKET (snd (getStaticProps ctx w)) = env_AWS_S3_BUCKET w
  /\ tokens_drawn (snd (getStaticProps ctx w)) = tokens_drawn w
  /\ store_writes (snd (getStaticProps ctx w)) = store_writes w
  /\ (s3_calls (snd (getStaticProps ctx w)) = s3_calls w
      \/ exists req, s3_calls (snd (getStaticProps ctx w)) = s3_calls w ++ [GetObject req]).
Proof.
  destruct (getStaticProps_world ctx w) as [->|[req ->]].
  - repeat split. by left.
  - unfold store_writes. simpl. rewrite filter_app, length_app. simpl.
    repeat split; [lia|]. right. by eexists.
Qed.

(** X11.  In preview mode with a [previewData] that has no [snapshotId] (an
    object without the property, a string, [false]), [getStaticProps] does
    not fail early: it asks the store for the key [undefined.json], and its
    result is the outcome of that read, with [snapshotId] undefined. *)
Theorem getStaticProps_without_snapshotId
        (pd : PreviewData) (w w' : World) (r : ReadResult) :
  (pd = PreviewObject None \/ pd = PreviewFalse \/ exists s, pd = PreviewString s) ->
  reads None w r w' ->
  getStaticProps (mkContext (Some true) pd) w
    = (Normal (mkResult (props_of_read None r)), w')
  /\ s3_calls w'
     = s3_calls w ++ [GetObject (mkRequest (env_AWS_S3_BUCKET w) "undefined.json")]
  /\ snapshotId (props_of_read None r) = None.
Proof.
  intros Hpd Hr.
  assert (destructure_snapshotId pd = mret None) as Hd.
  { destruct Hpd as [->|[->|[s ->]]]; reflexivity. }
  rewrite (getStaticProps_destructured (Some true) pd None w eq_refl Hd).
  split; [by apply getStaticProps_reads|].
  split; [by rewrite (reads_logs _ _ _ _ Hr)|].
  by destruct r.
Qed.

Lemma getStaticProps_without_snapshotId_witness :
  getStaticProps (mkContext (Some true) (PreviewObject None))
    (store_object "preview-snapshots" "undefined.json" (mkObject (Some "[]")) empty_world)
  = (Normal (mkResult (mkProps true None (Some (JArray [])) None None)),
     log_call (GetObject (mkRequest (Some "preview-snapshots") "undefined.json"))
       (store_object "preview-snapshots" "undefined.json" (mkObject (Some "[]"))
                     empty_world)).
Proof.
  refine (proj1 (getStaticProps_without_snapshotId (PreviewObject None)
                   (store_object "preview-snapshots" "undefined.json"
                                 (mkObject (Some "[]")) empty_world)
                   _ (ReadOk (JArray [])) _ _)).
  - by left.
  - eapply reads_document; [vm_compute; reflexivity | reflexivity | vm_compute; reflexivity].
Defined.

(** X12.  What the page generated by [getStaticProps] shows, whatever the
    state of the component.  Outside preview mode: no banner, and [Content]
    with an empty list of edits.  In preview mode with a snapshot whose
    document is a sequence of edits: the banner, and [Content] with that
    document.  In preview mode with a failed read: the banner, and the
    error panel with one of the two messages in place of [Content]. *)
Theorem Home_of_getStaticProps
        (s : string) (pd : PreviewData) (w w' : World) (r : ReadResult) (h : HomeState) :
  reads (Some s) w r w' ->
  (exists c, fst (getStaticProps (mkContext (Some false) pd) w) = Normal c
     /\ drop 2 (Home (props c) h)
        = [Nothing; ContentView (isEdit h) (Some (JArray []));
           if isEdit h then SnapshotBar (isSharingView h) else EditButton])
  /\ (exists c, fst (getStaticProps (mkContext (Some true) (PreviewObject (Some s))) w)
                = Normal c
      /\ Home (props c) h !! 2 = Some PreviewBanner
      /\ (forall es, r = ReadOk (FieldEdits_toJs es) ->
            Home (props c) h !! 3
            = Some (ContentView (isEdit h) (Some (FieldEdits_toJs es))))
      /\ (forall e, r = ReadFailed e ->
            Home (props c) h !! 3 = Some (Oops (Some msg_not_exist))
            \/ Home (props c) h !! 3 = Some (Oops (Some msg_connecting)))).
Proof.
  intros Hr. split.
  - eexists. split; reflexivity.
  - eexists. rewrite (getStaticProps_reads _ _ _ _ Hr). split; [reflexivity|].
    simpl. destruct r as [v|e]; simpl.
    + split; [done|]. split; [|done]. by intros es [= ->].
    + split; [done|]. split; [done|]. intros e' _.
      destruct (decide (statusCode e = Some 403%Z)); [by left | by right].
Qed.

Lemma Home_of_getStaticProps_witness :
  exists c, fst (getStaticProps (mkContext (Some true) (PreviewObject (Some "abc123")))
                   empty_world) = Normal c
    /\ Home (props c) initial_Home !! 2 = Some PreviewBanner
    /\ (forall es, ReadFailed AccessDenied = ReadOk (FieldEdits_toJs es) ->
          Home (props c) initial_Home !! 3
          = Some (ContentView (isEdit initial_Home) (Some (FieldEdits_toJs es))))
    /\ (forall e, ReadFailed AccessDenied = ReadFailed e ->
          Home (props c) initial_Home !! 3 = Some (Oops (Some msg_not_exist))
          \/ Home (props c) initial_Home !! 3 = Some (Oops (Some msg_connecting))).
Proof.
  refine (proj2 (Home_of_getStaticProps "abc123" PreviewUndefined empty_world _
                   (ReadFailed AccessDenied) initial_Home _)).
  apply reads_rejected. reflexivity.
Defined.

Lemma step_click_idle (b : Browser) (n : nat) :
  hasSaveRequest_current (home b) = false ->
  step (mkSession b n) Click_share = mkSession (share b) (S n).
Proof.
  intros Hidle. unfold step, share. cbn [page in_flight]. rewrite Hidle.
  cbn [fetches]. rewrite length_app. simpl. f_equal. lia.
Qed.

(** X13.  [share] and the chain clear a dialog only by overwriting its own
    state: after a save that succeeded with the identifier [id] and a
    second save that the endpoint refused with the text [t], both over, the
    page shows the error dialog with [t] and still the share link dialog
    for [id]; nothing is in flight and two requests were sent. *)
Theorem second_save_fails_after_first (b : Browser) (res1 res2 : Response)
        (t1 t2 id : string) (ms : list (string * JsValue)) (p : Props) :
  hasSaveRequest_current (home b) = false ->
  ok res1 = true ->
  payload res1 = Some t1 ->
  JSON.parse t1 = Some (JObject ms) ->
  get_prop "snapshotId" ms = Some (JString id) ->
  id <> "" ->
  ok res2 = false ->
  payload res2 = Some t2 ->
  take 2 (Home p (home (page (run_events (mkSession b 0)
            [Click_share; Fetch_ends (inl res1); Click_share; Fetch_ends (inl res2)]))))
    = [ErrorDialog t2; ShareLinkDialog (JString id)]
  /\ in_flight (run_events (mkSession b 0)
       [Click_share; Fetch_ends (inl res1); Click_share; Fetch_ends (inl res2)]) = 0
  /\ length (fetches (page (run_events (mkSession b 0)
       [Click_share; Fetch_ends (inl res1); Click_share; Fetch_ends (inl res2)])))
     = length (fetches b) + 2.
Proof.
  intros Hidle Hok1 Hp1 Hj1 Hid Hne Hok2 Hp2.
  unfold run_events. cbn [fold_left].
  rewrite (step_click_idle b 0 Hidle).
  change (step (mkSession (share b) 1) (Fetch_ends (inl res1)))
    with (mkSession (fetch_settled (Fulfilled res1) (share b)) 0).
  assert (home (fetch_settled (Fulfilled res1) (share b))
          = setSharing false (setSnapshotId (Some (JString id))
                                (setSharing true (home b)))) as Hh1.
  { unfold fetch_settled, share. rewrite Hidle. cbn [home].
    unfold share_chain, then_, Response_json. rewrite Hok1, Hp1, Hj1.
    simpl. by rewrite Hid. }
  rewrite step_click_idle by (by rewrite Hh1).
  change (step (mkSession (share (fetch_settled (Fulfilled res1) (share b))) 1)
               (Fetch_ends (inl res2)))
    with (mkSession (fetch_settled (Fulfilled res2)
                       (share (fetch_settled (Fulfilled res1) (share b)))) 0).
  cbn [page in_flight].
  assert (share (fetch_settled (Fulfilled res1) (share b))
          = mkBrowser (document b)
              (setSharing true (home (fetch_settled (Fulfilled res1) (share b))))
              (S (S (dom_queries b)))
              ((fetches b ++ [mkFetch "/api/save" "POST"
                               (stringify (FieldEdits_toJs (persistContents (document b))))
                               "application/json"])
               ++ [mkFetch "/api/save" "POST"
                     (stringify (FieldEdits_toJs (persistContents (document b))))
                     "application/json"])) as Hs2.
  { unfold share at 1. rewrite Hh1. cbn [hasSaveRequest_current setSharing].
    unfold fetch_settled, share. rewrite Hidle. reflexivity. }
  rewrite Hs2. unfold fetch_settled at 1 3. cbn [home fetches]. rewrite Hh1.
  unfold share_chain, then_, Response_text. rewrite Hok2, Hp2. simpl.
  rewrite bool_decide_eq_false_2 by done. simpl.
  rewrite !length_app. simpl. repeat split. lia.
Qed.

Lemma second_save_fails_after_first_witness :
  take 2 (Home (mkProps false None None None None)
            (home (page (run_events (mkSession sample_page 0)
               [Click_share;
                Fetch_ends (inl (mkResponse 200
                   (Some (stringify (JObject [("snapshotId", JString "abc123")])))));
                Click_share;
                Fetch_ends (inl (mkResponse 500 (Some "boom")))]))))
  = [ErrorDialog "boom"; ShareLinkDialog (JString "abc123")].
Proof.
  refine (proj1 (second_save_fails_after_first sample_page
                   (mkResponse 200
                      (Some (stringify (JObject [("snapshotId", JString "abc123")]))))
                   (mkResponse 500 (Some "boom"))
                   (stringify (JObject [("snapshotId", JString "abc123")]))
                   "boom" "abc123" [("snapshotId", JString "abc123")]
                   (mkProps false None None None None)
                   eq_refl eq_refl eq_refl eq_refl eq_refl _ eq_refl eq_refl)).
  discriminate.
Defined.

(** X14.  What was typed is what the preview overlays: when the store holds,
    under the key of [id], the body of the request that [share] sent for a
    document, [getStaticProps] in preview mode with [id] returns contents
    that read back as exactly the records collected from that document, and
    [Home] hands them to [Content]. *)
Theorem posted_edits_come_back
        (b : Browser) (w : World) (bucket id : string) (req : FetchRequest) :
  hasSaveRequest_current (home b) = false ->
  last (fetches (share b)) = Some req ->
  env_AWS_S3_BUCKET w = Some bucket ->
  s3_fault w = None ->
  s3_objects w !! (bucket, id +:+ ".json") = Some (mkObject (Some (body req))) ->
  exists c w',
    getStaticProps (mkContext (Some true) (PreviewObject (Some id))) w = (Normal c, w')
    /\ isPreview (props c) = true
    /\ Home_edits (props c) ≫= FieldEdits_ofJs = Some (persistContents (document b))
    /\ forall h,
         Home (props c) h !! 3
         = Some (ContentView (isEdit h)
                   (Some (FieldEdits_toJs (persistContents (document b))))).
Proof.
  intros Hidle Hlast Henv Hfault Hobj.
  assert (body req = stringify (FieldEdits_toJs (persistContents (document b)))) as Hbody.
  { unfold share in Hlast. rewrite Hidle in Hlast. cbn [fetches] in Hlast.
    rewrite last_snoc in Hlast. by inversion Hlast. }
  assert (reads (Some id) w (ReadOk (FieldEdits_toJs (persistContents (document b))))
            (log_call (GetObject (mkRequest (env_AWS_S3_BUCKET w) (json_key (Some id)))) w))
    as Hr.
  { eapply reads_document.
    - unfold s3_getObject. rewrite Hfault, Henv. simpl. rewrite Hobj. reflexivity.
    - reflexivity.
    - rewrite Hbody. apply parse_stringify_edits. }
  eexists _, _. split; [exact (getStaticProps_reads _ _ _ _ Hr)|].
  simpl. repeat split. apply FieldEdits_ofJs_toJs.
Qed.

Lemma posted_edits_come_back_witness :
  exists c w',
    getStaticProps (mkContext (Some true) (PreviewObject (Some "abc123")))
      (store_object "preview-snapshots" "abc123.json"
         (mkObject (Some (stringify (FieldEdits_toJs (persistContents sample_document)))))
         empty_world)
    = (Normal c, w')
    /\ isPreview (props c) = true
    /\ Home_edits (props c) ≫= FieldEdits_ofJs
       = Some (persistContents (document sample_page))
    /\ forall h,
         Home (props c) h !! 3
         = Some (ContentView (isEdit h)
                   (Some (FieldEdits_toJs (persistContents (document sample_page))))).
Proof.
  apply (posted_edits_come_back sample_page
           (store_object "preview-snapshots" "abc123.json"
              (mkObject (Some (stringify (FieldEdits_toJs
                                            (persistContents sample_document)))))
              empty_world)
           "preview-snapshots" "abc123"
           (mkFetch "/api/save" "POST"
              (stringify (FieldEdits_toJs (persistContents sample_document)))
              "application/json")); reflexivity.
Defined.

(** X15.  Nothing to collect does not stop the save: when no element of the
    document is an editable child of an identified element (as when the
    page is not in edit mode), [share] from an idle page still sets the
    guard and sends its request, whose body is the empty array. *)
Theorem share_with_nothing_editable (b : Browser) :
  hasSaveRequest_current (home b) = false ->
  (forall p x, child_in (document b) p x ->
     is_Some (DOM.attr_id p) -> DOM.attr_contenteditable x <> Some "true") ->
  persistContents (document b) = []
  /\ exists req,
       fetches (share b) = fetches b ++ [req]
       /\ body req = "[]"
       /\ hasSaveRequest_current (home (share b)) = true.
Proof.
  intros Hidle Hnone.
  assert (DOM.querySelectorAll (document b) = []) as Hq.
  { destruct (DOM.querySelectorAll (document b)) as [|[p x] l] eqn:Hl; [done|].
    assert (In (DOM.mkNode p x) (DOM.querySelectorAll (document b))) as Hin
      by (rewrite Hl; by left).
    apply querySelectorAll_spec in Hin as (Hc & Hid & He).
    by destruct (Hnone p x Hc Hid). }
  assert (persistContents (document b) = []) as Hp.
  { unfold persistContents. by rewrite Hq. }
  split; [exact Hp|]. unfold share. rewrite Hidle, Hp. eexists.
  repeat split.
Qed.

Lemma share_with_nothing_editable_witness :
  persistContents nested_document = []
  /\ exists req,
       fetches (share (mkBrowser nested_document initial_Home 0 []))
       = [] ++ [req]
       /\ body req = "[]"
       /\ hasSaveRequest_current
            (home (share (mkBrowser nested_document initial_Home 0 []))) = true.
Proof.
  apply (share_with_nothing_editable (mkBrowser nested_document initial_Home 0 []));
    [reflexivity|].
  intros p x Hc Hid He. cbn [document] in Hc.
  assert (In (DOM.mkNode p x) (DOM.querySelectorAll nested_document)) as Hin
    by (by apply querySelectorAll_spec).
  vm_compute in Hin. exact Hin.
Defined.
